(** * Document ingestion pipeline of financialGPT: a shallow embedding

    This development embeds the two Next.js route handlers of the
    document-ingestion feature (the chunk preview endpoint and the
    upload endpoint), the PDF parser registry and factory, and the
    [match_feedback_by_embedding] stored procedure of
    [setup-feedback-table.sql].

    External libraries and services (pdf-parse, the langchain text
    splitters, the embedding service, the Supabase client, JSON.parse)
    are oracles: fields of an environment record.  JavaScript numbers
    that the code only ever holds as integers are modelled as [nat] or
    [Z]; JavaScript strings as [string]. *)

From Stdlib Require Import String Ascii List Arith ZArith QArith Lia Bool.
From Stdlib Require Import Sorting.Sorted Sorting.Permutation.
Import ListNotations.
Set Warnings "-register-all".
Open Scope nat_scope.
Open Scope list_scope.
Open Scope string_scope.

(* ------------------------------------------------------------------ *)
(** ** JavaScript values and helpers *)

Module JS.

(** Errors thrown by the code: every throw in these files throws an
    [Error] (or a [TypeError]), so only the message is kept. *)
Inductive js_error : Type :=
| JsError (message : string).

Definition error_message (e : js_error) : string :=
  match e with JsError m => m end.

(** Outcome of a call that may throw. *)
Inductive outcome (A : Type) : Type :=
| Ret (a : A)
| Throw (e : js_error).
Arguments Ret {A} a.
Arguments Throw {A} e.

Definition obind {A B} (m : outcome A) (f : A -> outcome B) : outcome B :=
  match m with Ret a => f a | Throw e => Throw e end.

(** JSON-like JavaScript values (numbers restricted to integers). *)
Inductive jsval : Type :=
| JUndef
| JNull
| JBool (b : bool)
| JNum (z : Z)
| JStr (s : string)
| JArr (xs : list jsval)
| JObj (fields : list (string * jsval)).

Definition truthy (v : jsval) : bool :=
  match v with
  | JUndef | JNull => false
  | JBool b => b
  | JNum z => negb (Z.eqb z 0)
  | JStr s => negb (String.eqb s "")
  | JArr _ | JObj _ => true
  end.

(** [a || b] *)
Definition js_or (a b : jsval) : jsval := if truthy a then a else b.

(** Decimal rendering of a natural number, as [String(n)] does. *)
Fixpoint digits_aux (fuel n : nat) (acc : string) : string :=
  match fuel with
  | O => acc
  | S fuel' =>
      let d := String (ascii_of_nat (48 + n mod 10)) EmptyString in
      if Nat.ltb n 10 then d ++ acc else digits_aux fuel' (n / 10) (d ++ acc)
  end.

Definition nat_to_string (n : nat) : string := digits_aux (S n) n "".

Definition Z_to_string (z : Z) : string :=
  if (z <? 0)%Z then "-" ++ nat_to_string (Z.to_nat (- z))
  else nat_to_string (Z.to_nat z).

Fixpoint join (sep : string) (xs : list string) : string :=
  match xs with
  | [] => ""
  | [x] => x
  | x :: xs' => x ++ sep ++ join sep xs'
  end.

(** String conversion used by template literals ([`${v}`]). *)
Fixpoint to_string (v : jsval) : string :=
  match v with
  | JUndef => "undefined"
  | JNull => "null"
  | JBool true => "true"
  | JBool false => "false"
  | JNum z => Z_to_string z
  | JStr s => s
  | JArr xs =>
      join "," (map (fun x => match x with
                              | JUndef | JNull => ""
                              | _ => to_string x
                              end) xs)
  | JObj _ => "[object Object]"
  end.

(** JavaScript white space (the ASCII part of WhiteSpace and
    LineTerminator). *)
Definition is_space (c : ascii) : bool :=
  let n := nat_of_ascii c in
  Nat.eqb n 32 || Nat.eqb n 9 || Nat.eqb n 10 || Nat.eqb n 11
  || Nat.eqb n 12 || Nat.eqb n 13.

Fixpoint trim_start (s : string) : string :=
  match s with
  | EmptyString => EmptyString
  | String c s' => if is_space c then trim_start s' else s
  end.

Fixpoint rev_string (s : string) : string :=
  match s with
  | EmptyString => EmptyString
  | String c s' => rev_string s' ++ String c EmptyString
  end.

(** [s.trim()] *)
Definition trim (s : string) : string :=
  rev_string (trim_start (rev_string (trim_start s))).

Fixpoint lookup (fs : list (string * jsval)) (k : string) : option jsval :=
  match fs with
  | [] => None
  | (k', v) :: fs' => if String.eqb k' k then Some v else lookup fs' k
  end.

(** Property read [o.k] for the keys the routes read (none of them is an
    inherited property of [Object.prototype], [String.prototype] or
    [Array.prototype]): reading from [null] or [undefined] throws. *)
Definition get_prop (o : jsval) (k : string) : outcome jsval :=
  match o with
  | JUndef | JNull =>
      Throw (JsError ("Cannot read properties of " ++ to_string o
                      ++ " (reading '" ++ k ++ "')"))
  | JObj fs =>
      match lookup fs k with
      | Some v => Ret v
      | None => Ret JUndef
      end
  | _ => Ret JUndef
  end.

(** Assignment of an own property in an object literal: an existing key
    keeps its position and takes the new value, a new key is appended. *)
Fixpoint obj_set (fs : list (string * jsval)) (k : string) (v : jsval)
  : list (string * jsval) :=
  match fs with
  | [] => [(k, v)]
  | (k', v') :: fs' =>
      if String.eqb k' k then (k', v) :: fs' else (k', v') :: obj_set fs' k v
  end.

Fixpoint indexed {A} (i : nat) (xs : list A) : list (string * A) :=
  match xs with
  | [] => []
  | x :: xs' => (nat_to_string i, x) :: indexed (S i) xs'
  end.

Fixpoint chars (s : string) : list jsval :=
  match s with
  | EmptyString => []
  | String c s' => JStr (String c EmptyString) :: chars s'
  end.

(** Own enumerable properties copied by a spread [{...v}]. *)
Definition spread (v : jsval) : list (string * jsval) :=
  match v with
  | JObj fs => fs
  | JStr s => indexed 0 (chars s)
  | JArr xs => indexed 0 xs
  | _ => []
  end.

(** Successive property assignments, left to right. *)
Definition obj_assign (fs : list (string * jsval)) (kvs : list (string * jsval))
  : list (string * jsval) :=
  fold_left (fun acc kv => obj_set acc (fst kv) (snd kv)) kvs fs.

(** [{...v, k1: v1, ..., kn: vn}] *)
Definition spread_with (v : jsval) (kvs : list (string * jsval))
  : list (string * jsval) :=
  obj_assign (spread v) kvs.

Definition nl : string := String (ascii_of_nat 10) EmptyString.

End JS.
Import JS.

(* ------------------------------------------------------------------ *)
(** ** [parseInt] and the form fields read by both routes *)

Module Form.

Definition digit_value (c : ascii) : option nat :=
  let n := nat_of_ascii c in
  if Nat.leb 48 n && Nat.leb n 57 then Some (n - 48)
  else if Nat.leb 97 n && Nat.leb n 102 then Some (n - 87)
  else if Nat.leb 65 n && Nat.leb n 70 then Some (n - 55)
  else None.

(** Longest prefix of digits valid in radix [r], most significant
    first. *)
Fixpoint digit_prefix (r : nat) (s : string) : list nat :=
  match s with
  | EmptyString => []
  | String c s' =>
      match digit_value c with
      | Some d => if Nat.ltb d r then d :: digit_prefix r s' else []
      | None => []
      end
  end.

Definition digits_value (r : nat) (ds : list nat) : Z :=
  fold_left (fun acc d => (acc * Z.of_nat r + Z.of_nat d)%Z) ds 0%Z.

(** [parseInt(x)] with no radix (ECMAScript 19.2.5).  [None] is [NaN].
    The argument is the value of [formData.get(k) as string]: [None] is
    [null], converted by [ToString] to ["null"].  The result is the
    mathematical value; for digit strings longer than 15 digits JS rounds
    it to a double, which is never 0 for a non-zero value.  [-0] is
    represented by [0] (both are falsy). *)
Definition parseInt (x : option string) : option Z :=
  let s0 := match x with None => "null" | Some s => s end in
  let s1 := trim_start s0 in
  let '(sign, s2) :=
    match s1 with
    | String c rest =>
        if Ascii.eqb c "-"%char then ((-1)%Z, rest)
        else if Ascii.eqb c "+"%char then (1%Z, rest)
        else (1%Z, s1)
    | EmptyString => (1%Z, s1)
    end in
  let '(r, s3) :=
    match s2 with
    | String z (String x' rest) =>
        if Ascii.eqb z "0"%char && (Ascii.eqb x' "x"%char || Ascii.eqb x' "X"%char)
        then (16, rest) else (10, s2)
    | _ => (10, s2)
    end in
  match digit_prefix r s3 with
  | [] => None
  | ds => Some (sign * digits_value r ds)%Z
  end.

(** [parseInt(x) || d]: [NaN] and [0] are falsy. *)
Definition int_or (x : option string) (d : Z) : Z :=
  match parseInt x with
  | None => d
  | Some z => if Z.eqb z 0 then d else z
  end.

(** [formData.get(k) as string || d] *)
Definition string_or (x : option string) (d : string) : string :=
  match x with
  | None => d
  | Some s => if String.eqb s "" then d else s
  end.

Record File : Type := mkFile {
  file_name : string;
  file_size : nat;
  file_bytes : list ascii
}.

(** The multipart form of a request: [files] holds [formData.getAll('files')],
    the other fields [formData.get(k)] ([None] is [null]). *)
Record FormData : Type := mkForm {
  files : list File;
  f_metadata : option string;
  f_splitterType : option string;
  f_chunkSize : option string;
  f_chunkOverlap : option string;
  f_pdfParser : option string
}.

Record Params : Type := mkParams {
  splitterType : string;
  chunkSize : Z;
  chunkOverlap : Z;
  pdfParser : string
}.

(** Lines 12-15 of the preview route and 18-20 of the upload route (the
    two routes read the fields with the same expressions). *)
Definition read_params (fd : FormData) : Params :=
  {| splitterType := string_or (f_splitterType fd) "recursive";
     chunkSize := int_or (f_chunkSize fd) 5000;
     chunkOverlap := int_or (f_chunkOverlap fd) 500;
     pdfParser := string_or (f_pdfParser fd) "pdf-parse" |}.

End Form.
Import Form.

(* ------------------------------------------------------------------ *)
(** ** PDF parser registry, factory and [parsePDF] *)

Module Parsers.

Record PDFParserFeatures : Type := mkFeatures {
  extractText : bool;
  extractMetadata : bool;
  handleEncrypted : bool;
  handleImages : bool;
  preserveFormatting : bool;
  ocrCapability : bool
}.

Inductive ParserClass : Type := PDFParseParser | MockPDFParser.

Definition class_name (c : ParserClass) : string :=
  match c with PDFParseParser => "pdf-parse" | MockPDFParser => "mock" end.

Definition supportsFeatures (c : ParserClass) : PDFParserFeatures :=
  match c with
  | PDFParseParser => mkFeatures true true false false false false
  | MockPDFParser => mkFeatures true true true false false false
  end.

(** [AVAILABLE_PARSERS], in insertion (= [Object.keys]) order. *)
Definition AVAILABLE_PARSERS : list (string * ParserClass) :=
  [("pdf-parse", PDFParseParser); ("mock", MockPDFParser)].

(** What a property read [AVAILABLE_PARSERS[k]] can yield: an own
    property, or a property inherited from [Object.prototype]. *)
Inductive PropValue : Type :=
| PClass (c : ParserClass)
| PObjectCtor           (* [Object.prototype.constructor], i.e. [Object] *)
| PMethod               (* a built-in method: not a constructor *)
| PProtoObject          (* [__proto__]: the object [Object.prototype] *)
| PUndefined.

Definition object_prototype_props : list (string * PropValue) :=
  [("constructor", PObjectCtor); ("__proto__", PProtoObject);
   ("hasOwnProperty", PMethod); ("isPrototypeOf", PMethod);
   ("propertyIsEnumerable", PMethod); ("toString", PMethod);
   ("toLocaleString", PMethod); ("valueOf", PMethod);
   ("__defineGetter__", PMethod); ("__defineSetter__", PMethod);
   ("__lookupGetter__", PMethod); ("__lookupSetter__", PMethod)].

Fixpoint assoc {A} (l : list (string * A)) (k : string) : option A :=
  match l with
  | [] => None
  | (k', v) :: l' => if String.eqb k' k then Some v else assoc l' k
  end.

(** [AVAILABLE_PARSERS[k]]: own properties first, then the prototype. *)
Definition registry_get (k : string) : PropValue :=
  match assoc AVAILABLE_PARSERS k with
  | Some c => PClass c
  | None =>
      match assoc object_prototype_props k with
      | Some v => v
      | None => PUndefined
      end
  end.

(** What [new ParserClass()] returns. *)
Inductive Instance : Type :=
| InstParser (c : ParserClass)
| InstPlainObject.

Definition not_found_message (k : string) : string :=
  "Parser '" ++ k ++ "' not found. Available parsers: "
  ++ join ", " (map fst AVAILABLE_PARSERS).

(** [PDFParserFactory.create] *)
Definition create (parserType : string) : outcome Instance :=
  match registry_get parserType with
  | PUndefined => Throw (JsError (not_found_message parserType))
  | PClass c => Ret (InstParser c)
  | PObjectCtor => Ret InstPlainObject
  | PMethod | PProtoObject => Throw (JsError "ParserClass is not a constructor")
  end.

(** [PDFParserFactory.getAvailableParsers]: name and features. *)
Definition getAvailableParsers : list (string * PDFParserFeatures) :=
  map (fun p => (fst p, supportsFeatures (snd p))) AVAILABLE_PARSERS.

Inductive Feature : Type :=
| FExtractText | FExtractMetadata | FHandleEncrypted
| FHandleImages | FPreserveFormatting | FOcrCapability.

Definition feature (f : PDFParserFeatures) (k : Feature) : bool :=
  match k with
  | FExtractText => extractText f
  | FExtractMetadata => extractMetadata f
  | FHandleEncrypted => handleEncrypted f
  | FHandleImages => handleImages f
  | FPreserveFormatting => preserveFormatting f
  | FOcrCapability => ocrCapability f
  end.

(** A [Partial<PDFParserFeatures>] as its [Object.entries]: each present
    key with its value, [None] for an explicit [undefined]. *)
Definition Requirements := list (Feature * option bool).

Definition meets (f : PDFParserFeatures) (req : Requirements) : bool :=
  forallb (fun e => match snd e with
                    | None | Some false => true
                    | Some true => feature f (fst e)
                    end) req.

Fixpoint first_meeting (ps : list (string * PDFParserFeatures))
         (req : Requirements) : string :=
  match ps with
  | [] => "pdf-parse"
  | p :: ps' => if meets (snd p) req then fst p else first_meeting ps' req
  end.

(** [PDFParserFactory.getBestParser]; [None] is an absent argument. *)
Definition getBestParser (requirements : option Requirements) : string :=
  match requirements with
  | None => "pdf-parse"
  | Some req => first_meeting getAvailableParsers req
  end.

End Parsers.
Import Parsers.

(* ------------------------------------------------------------------ *)
(** ** Text splitters and the environment of external services *)

Module Env.

(** The langchain splitter a route builds from [splitterType]. *)
Inductive SplitterKind : Type :=
| CharacterTextSplitter
| RecursiveCharacterTextSplitter (separators : option (list string)).

Record SplitterCfg : Type := mkSplitter {
  kind : SplitterKind;
  cfg_chunkSize : Z;
  cfg_chunkOverlap : Z
}.

(** The [switch (splitterType)] of both routes. *)
Definition make_splitter (p : Params) : SplitterCfg :=
  let k :=
    if String.eqb (splitterType p) "character" then CharacterTextSplitter
    else if String.eqb (splitterType p) "markdown" then
      RecursiveCharacterTextSplitter
        (Some [nl ++ "## "; nl ++ "### "; nl ++ "#### "; nl ++ nl; nl; " "; ""])
    else if String.eqb (splitterType p) "html" then
      RecursiveCharacterTextSplitter
        (Some ["</div>"; "</p>"; "</h1>"; "</h2>"; "</h3>"; nl ++ nl; nl; " "; ""])
    else RecursiveCharacterTextSplitter None in
  mkSplitter k (chunkSize p) (chunkOverlap p).

(** A row inserted into [documents_enhanced]. *)
Record StoredRecord : Type := mkRecord {
  content : string;
  rec_metadata : list (string * jsval);
  embedding : list Q;
  rec_title : jsval;
  rec_author : jsval;
  doc_type : jsval;
  genre : jsval;
  rec_topic : jsval;
  difficulty : jsval;
  tags : jsval;
  source_type : string;
  summary : jsval;
  chunk_id : nat;
  total_chunks : nat;
  source : string
}.

(** What [await supabase.from(..).insert(..)] does: resolves without an
    error (the row is stored), resolves with [{ error }], or rejects. *)
Inductive InsertResult : Type :=
| InsOk
| InsError (err : jsval)
| InsThrow (e : js_error).

(** External services.  [generate_embedding] and [db_insert] receive the
    number of earlier calls in the request, so a service may fail on any
    particular call. *)
Record Env : Type := mkEnv {
  (** [pdf(buffer)] of pdf-parse: [data.text || ''] and the metadata
      object the parser builds from [data]. *)
  pdf_lib : list ascii -> outcome (string * jsval);
  (** [Date.now() - startTime] of a parser's [parse]. *)
  parse_clock : ParserClass -> nat;
  (** [process.env.NODE_ENV === 'development'] *)
  development : bool;
  json_parse : string -> outcome jsval;
  (** the splitter constructor (it may reject its options) *)
  new_splitter : SplitterCfg -> outcome unit;
  split_text : SplitterCfg -> string -> outcome (list string);
  (** Modelled from the spec: [generateEmbedding] of [@/lib/openai]
      (not in src/) requests an embedding from the external embedding
      service; it resolves to a vector or throws. *)
  generate_embedding : nat -> string -> outcome (list Q);
  db_insert : nat -> StoredRecord -> InsertResult
}.

Record ParseResult : Type := mkParseResult {
  text : string;
  pr_metadata : jsval;
  parseTime : nat;
  parserUsed : string
}.

Definition mock_text (buffer : list ascii) : string :=
  "Mock PDF content extracted from " ++ nat_to_string (length buffer)
  ++ " byte buffer. This is sample text that would normally come from a PDF parser. The content includes multiple paragraphs and sections to test chunking functionality.".

(** [instance.parse(buffer)] *)
Definition instance_parse (env : Env) (inst : Instance) (buffer : list ascii)
  : outcome ParseResult :=
  match inst with
  | InstParser PDFParseParser =>
      match pdf_lib env buffer with
      | Ret (t, md) =>
          Ret (mkParseResult t md (parse_clock env PDFParseParser) "pdf-parse")
      | Throw e => Throw (JsError ("PDF-Parse failed: " ++ error_message e))
      end
  | InstParser MockPDFParser =>
      Ret (mkParseResult (mock_text buffer)
             (JObj [("pages", JNum 1); ("title", JStr "Mock PDF Document");
                    ("author", JStr "Test Author"); ("creator", JStr "Mock Parser")])
             (parse_clock env MockPDFParser) "mock")
  | InstPlainObject => Throw (JsError "pdfParser.parse is not a function")
  end.

Definition parse_with (env : Env) (parser : string) (buffer : list ascii)
  : outcome ParseResult :=
  obind (create parser) (fun inst => instance_parse env inst buffer).

(** [parsePDF(buffer, { parser, fallbackToMock })]; the fallback call
    [parsePDF(buffer, { parser: 'mock' })] has [fallbackToMock = false]. *)
Definition parsePDF (env : Env) (buffer : list ascii) (parser : string)
           (fallbackToMock : bool) : outcome ParseResult :=
  match parse_with env parser buffer with
  | Ret r => Ret r
  | Throw e =>
      if fallbackToMock && negb (String.eqb parser "mock")
      then parse_with env "mock" buffer
      else Throw e
  end.

(** [!text || text.trim().length === 0] *)
Definition blank (t : string) : bool := String.eqb (trim t) "".

End Env.
Import Env.

(* ------------------------------------------------------------------ *)
(** ** The preview route ([src/unnamed/part_000]) *)

Module Preview.

Record ChunkPreview : Type := mkPreview {
  index : nat;
  pv_content : string;
  pv_length : nat
}.

Record ParsingInfo : Type := mkParsingInfo {
  total_parse_time : nat;
  parser_used : string;
  files_metadata : list jsval
}.

Record ChunkStats : Type := mkStats {
  st_total_chunks : nat;
  avg_length : nat;
  min_length : nat;
  max_length : nat;
  first_chunk : ChunkPreview;
  last_chunk : ChunkPreview;
  all_chunks : list ChunkPreview;
  parsing_info : ParsingInfo
}.

Inductive PreviewResponse : Type :=
| PreviewOk (chunkStats : ChunkStats)           (* 200, success: true *)
| PreviewError (status : nat) (error : string).

Definition sum_list (l : list nat) : nat := fold_left Nat.add l 0.

(** [Math.round(a / b)] for [a >= 0], [b > 0]: [floor(a / b + 1/2)]. *)
Definition round_div (a b : nat) : nat := (2 * a + b) / (2 * b).

Fixpoint previews_from (i : nat) (cs : list string) : list ChunkPreview :=
  match cs with
  | [] => []
  | c :: cs' => mkPreview i c (String.length c) :: previews_from (S i) cs'
  end.

Definition default_preview : ChunkPreview := mkPreview 0 "" 0.

(** Lines 148-178, on [allChunks = c :: cs] (the route returns before
    them on an empty [allChunks]); [Math.min(...xs)] and [Math.max(...xs)]
    of a non-empty [xs] are folds starting at its first element. *)
Definition chunk_stats (c : string) (cs : list string) (totalParseTime : nat)
           (pdfParser : string) (extractedMetadata : list jsval) : ChunkStats :=
  let allChunks := c :: cs in
  let chunkLengths := map String.length allChunks in
  let totalChunks := length allChunks in
  let avgLength := round_div (sum_list chunkLengths) totalChunks in
  let minLength := fold_left Nat.min (map String.length cs) (String.length c) in
  let maxLength := fold_left Nat.max (map String.length cs) (String.length c) in
  let chunkPreviews := previews_from 0 allChunks in
  {| st_total_chunks := totalChunks;
     avg_length := avgLength;
     min_length := minLength;
     max_length := maxLength;
     first_chunk := nth 0 chunkPreviews default_preview;
     last_chunk := nth (length chunkPreviews - 1) chunkPreviews default_preview;
     all_chunks := chunkPreviews;
     parsing_info := mkParsingInfo totalParseTime pdfParser extractedMetadata |}.

Definition file_error (f : File) (e : js_error) : PreviewResponse :=
  PreviewError 400 ("Failed to process file " ++ file_name f ++ ": "
                    ++ error_message e).

(** The [for (const file of files)] loop of lines 84-139: [inl] is a
    [return] from inside the loop. *)
Fixpoint preview_loop (env : Env) (p : Params) (cfg : SplitterCfg)
         (fs : list File) (allChunks : list string) (totalParseTime : nat)
         (extractedMetadata : list jsval)
  : PreviewResponse + (list string * nat * list jsval) :=
  match fs with
  | [] => inr (allChunks, totalParseTime, extractedMetadata)
  | f :: fs' =>
      match parsePDF env (file_bytes f) (pdfParser p) (development env) with
      | Throw e => inl (file_error f e)
      | Ret pr =>
          let tpt := totalParseTime + parseTime pr in
          let em := app extractedMetadata
                    [JObj (obj_assign
                                (obj_assign [("filename", JStr (file_name f))]
                                   (spread (pr_metadata pr)))
                                [("parserUsed", JStr (parserUsed pr));
                                 ("parseTime", JNum (Z.of_nat (parseTime pr)))])] in
          if blank (text pr) then preview_loop env p cfg fs' allChunks tpt em
          else
            match split_text env cfg (text pr) with
            | Throw e => inl (file_error f e)
            | Ret chunks => preview_loop env p cfg fs' (app allChunks chunks) tpt em
            end
      end
  end.

Definition internal_error (e : js_error) : PreviewResponse :=
  PreviewError 500 ("Internal server error: " ++ error_message e).

(** [POST] of the preview route. *)
Definition preview (env : Env) (fd : FormData) : PreviewResponse :=
  let p := read_params fd in
  match files fd with
  | [] => PreviewError 400 "No files provided"
  | _ =>
      let metadata :=
        match f_metadata fd with
        | None => Ret (JObj [])
        | Some s => if String.eqb s "" then Ret (JObj []) else json_parse env s
        end in
      match metadata with
      | Throw e => internal_error e
      | Ret _ =>
          let cfg := make_splitter p in
          match new_splitter env cfg with
          | Throw e => internal_error e
          | Ret _ =>
              match preview_loop env p cfg (files fd) [] 0 [] with
              | inl r => r
              | inr ([], _, _) =>
                  PreviewError 400 "No chunks could be generated from the files"
              | inr (c :: cs, tpt, em) => PreviewOk (chunk_stats c cs tpt (pdfParser p) em)
              end
          end
      end
  end.

End Preview.

(* ------------------------------------------------------------------ *)
(** ** The upload route ([src/src/app/api/upload-documents/route.ts]) *)

Module Upload.

(** The request's state: the rows of [documents_enhanced] the request
    stored, the number of calls made so far to each service, and the two
    counters of the handler ([totalChunks], [documentsCount]), which a
    throw does not roll back. *)
Record UState : Type := mkUState {
  db : list StoredRecord;
  embed_calls : nat;
  insert_calls : nat;
  totalChunks : nat;
  documentsCount : nat
}.

Definition M (A : Type) : Type := UState -> outcome A * UState.

Definition ret {A} (a : A) : M A := fun s => (Ret a, s).
Definition bind {A B} (m : M A) (f : A -> M B) : M B :=
  fun s => match m s with
           | (Ret a, s') => f a s'
           | (Throw e, s') => (Throw e, s')
           end.
Definition lift {A} (o : outcome A) : M A := fun s => (o, s).
Definition try_catch {A} (m : M A) (h : js_error -> M A) : M A :=
  fun s => match m s with
           | (Throw e, s') => h e s'
           | r => r
           end.

Notation "'do' x <- m ; k" := (bind m (fun x => k))
  (at level 60, x name, m at next level, right associativity).
Notation "m ;; k" := (bind m (fun _ => k)) (at level 60, right associativity).

Definition incr_totalChunks : M unit :=
  fun s => (Ret tt, mkUState (db s) (embed_calls s) (insert_calls s)
                             (S (totalChunks s)) (documentsCount s)).
Definition incr_documentsCount : M unit :=
  fun s => (Ret tt, mkUState (db s) (embed_calls s) (insert_calls s)
                             (totalChunks s) (S (documentsCount s))).

(** [await generateEmbedding(t)] *)
Definition generateEmbedding (env : Env) (t : string) : M (list Q) :=
  fun s => (generate_embedding env (embed_calls s) t,
            mkUState (db s) (S (embed_calls s)) (insert_calls s)
                     (totalChunks s) (documentsCount s)).

(** [const { error } = await supabase.from('documents_enhanced').insert(r)]:
    [None] is no error. *)
Definition insert (env : Env) (r : StoredRecord) : M (option jsval) :=
  fun s =>
    let n := insert_calls s in
    match db_insert env n r with
    | InsOk => (Ret None, mkUState (app (db s) [r]) (embed_calls s) (S n)
                                    (totalChunks s) (documentsCount s))
    | InsError err => (Ret (Some err), mkUState (db s) (embed_calls s) (S n)
                                                (totalChunks s) (documentsCount s))
    | InsThrow e => (Throw e, mkUState (db s) (embed_calls s) (S n)
                                       (totalChunks s) (documentsCount s))
    end.

(** The template literal of lines 121-126, trimmed. *)
Definition context_text (title author topic : jsval) (f : File) (chunk : string)
  : string :=
  trim (nl ++ "Company/Source: " ++ to_string (js_or title (JStr (file_name f)))
        ++ nl ++ "Author/Speaker: " ++ to_string (js_or author (JStr "Unknown"))
        ++ nl ++ "Topic: " ++ to_string (js_or topic (JStr "General"))
        ++ nl ++ "Content: " ++ chunk
        ++ nl ++ "            ").

(** The object literal of lines 135-160. *)
Definition chunk_record (metadata : jsval) (f : File) (pr : ParseResult) (n i : nat)
           (chunk : string) (emb : list Q)
           (r_title r_author r_doc_type r_genre r_topic r_difficulty r_tags
            r_description : jsval) : StoredRecord :=
  {| content := chunk;
     rec_metadata :=
       spread_with metadata
         [("chunk_index", JNum (Z.of_nat i));
          ("total_chunks", JNum (Z.of_nat n));
          ("filename", JStr (file_name f));
          ("file_size", JNum (Z.of_nat (file_size f)));
          ("parser_used", JStr (parserUsed pr));
          ("parse_time", JNum (Z.of_nat (parseTime pr)));
          ("pdf_metadata", pr_metadata pr)];
     embedding := emb;
     rec_title := r_title;
     rec_author := js_or r_author JNull;
     doc_type := js_or r_doc_type (JStr "Book");
     genre := js_or r_genre JNull;
     rec_topic := js_or r_topic JNull;
     difficulty := js_or r_difficulty JNull;
     tags := js_or r_tags JNull;
     source_type := "pdf_upload";
     summary := js_or r_description JNull;
     chunk_id := i + 1;
     total_chunks := n;
     source := file_name f |}.

(** The [try] block of lines 119-172, for chunk [i] of [n]. *)
Definition chunk_body (env : Env) (metadata : jsval) (f : File) (pr : ParseResult)
           (n i : nat) (chunk : string) : M unit :=
  do title <- lift (get_prop metadata "title");
  do author <- lift (get_prop metadata "author");
  do topic <- lift (get_prop metadata "topic");
  do emb <- generateEmbedding env (context_text title author topic f chunk);
  do r_title <- lift (get_prop metadata "title");
  do r_author <- lift (get_prop metadata "author");
  do r_doc_type <- lift (get_prop metadata "doc_type");
  do r_genre <- lift (get_prop metadata "genre");
  do r_topic <- lift (get_prop metadata "topic");
  do r_difficulty <- lift (get_prop metadata "difficulty");
  do r_tags <- lift (get_prop metadata "tags");
  do r_description <- lift (get_prop metadata "description");
  let r := chunk_record metadata f pr n i chunk emb r_title r_author r_doc_type
                        r_genre r_topic r_difficulty r_tags r_description in
  do chunkError <- insert env r;
  match chunkError with
  | Some _ => ret tt
  | None => incr_totalChunks
  end.

(** [for (let i = 0; i < chunks.length; i++) { try { .. } catch { } }],
    from index [i] on. *)
Fixpoint chunk_loop (env : Env) (metadata : jsval) (f : File) (pr : ParseResult)
         (n i : nat) (cs : list string) : M unit :=
  match cs with
  | [] => ret tt
  | c :: cs' =>
      try_catch (chunk_body env metadata f pr n i c) (fun _ => ret tt);;
      chunk_loop env metadata f pr n (S i) cs'
  end.

(** The [try] block of lines 79-180 for one file; [continue] is
    [ret tt] before [documentsCount++]. *)
Definition file_body (env : Env) (p : Params) (cfg : SplitterCfg)
           (metadata : jsval) (f : File) : M unit :=
  do pr <- lift (parsePDF env (file_bytes f) (pdfParser p) (development env));
  if blank (text pr) then ret tt
  else
    do chunks <- lift (split_text env cfg (text pr));
    match chunks with
    | [] => ret tt
    | _ =>
        chunk_loop env metadata f pr (length chunks) 0 chunks;;
        incr_documentsCount
    end.

Fixpoint file_loop (env : Env) (p : Params) (cfg : SplitterCfg)
         (metadata : jsval) (fs : list File) : M unit :=
  match fs with
  | [] => ret tt
  | f :: fs' =>
      try_catch (file_body env p cfg metadata f) (fun _ => ret tt);;
      file_loop env p cfg metadata fs'
  end.

Inductive UploadResponse : Type :=
| UploadOk (documentsCount chunksCount : nat) (message : string)  (* success: true *)
| UploadError (status : nat) (error : string).

Definition reset_counters : M unit :=
  fun s => (Ret tt, mkUState (db s) (embed_calls s) (insert_calls s) 0 0).

Definition get_state : M UState := fun s => (Ret s, s).

(** [POST] of the upload route. *)
Definition upload_body (env : Env) (fd : FormData) : M UploadResponse :=
  let p := read_params fd in
  match files fd with
  | [] => ret (UploadError 400 "No files provided")
  | _ =>
      match f_metadata fd with
      | None => ret (UploadError 400 "Metadata is required")
      | Some metadataStr =>
          if String.eqb metadataStr "" then ret (UploadError 400 "Metadata is required")
          else
            do metadata <- lift (json_parse env metadataStr);
            reset_counters;;
            let cfg := make_splitter p in
            do _u <- lift (new_splitter env cfg);
            file_loop env p cfg metadata (files fd);;
            do s <- get_state;
            ret (UploadOk (documentsCount s) (totalChunks s)
                   ("Successfully processed " ++ nat_to_string (documentsCount s)
                    ++ " documents with " ++ nat_to_string (totalChunks s) ++ " chunks"))
      end
  end.

Definition upload (env : Env) (fd : FormData) : M UploadResponse :=
  try_catch (upload_body env fd)
            (fun _ => ret (UploadError 500 "Internal server error")).

End Upload.

(* ------------------------------------------------------------------ *)
(** ** [match_feedback_by_embedding] ([setup-feedback-table.sql]) *)

Module Feedback.

Record FeedbackRow : Type := mkFeedback {
  fb_id : nat;
  fb_user_query : string;
  fb_ai_response : string;
  fb_feedback_type : string;
  fb_chat_id : option string;
  fb_rating : option Z;
  fb_comment : option string;
  fb_query_embedding : option (list Q);
  fb_created_at : option Z   (* [TIMESTAMPTZ DEFAULT NOW()], nullable *)
}.

(** A row of the function's [RETURNS TABLE]. *)
Record MatchRow : Type := mkMatch {
  m_id : nat;
  m_user_query : string;
  m_ai_response : string;
  m_feedback_type : string;
  m_chat_id : option string;
  m_rating : option Z;
  m_comment : option string;
  m_created_at : option Z;
  similarity : Q
}.

Inductive SqlError : Type :=
| AmbiguousColumn (name : string)
| NegativeLimit.

Inductive SqlResult : Type :=
| Rows (rs : list MatchRow)
| Error (e : SqlError).

(** Columns of [feedback], the table of the [FROM] clause. *)
Definition feedback_columns : list string :=
  ["id"; "user_query"; "ai_response"; "feedback_type"; "chat_id"; "rating";
   "comment"; "query_embedding"; "created_at"].

(** PL/pgSQL variables in scope in the function body: its parameters and
    the output columns of [RETURNS TABLE]. *)
Definition plpgsql_variables : list string :=
  ["query_embedding"; "match_threshold"; "match_count";
   "id"; "user_query"; "ai_response"; "feedback_type"; "chat_id"; "rating";
   "comment"; "created_at"; "similarity"].

(** Unqualified names of the [RETURN QUERY] statement, in textual order
    (select list, [WHERE], [ORDER BY], [LIMIT]); every other name is
    qualified by [feedback.] or is an output alias. *)
Definition unqualified_names : list string :=
  ["query_embedding"; "query_embedding"; "match_threshold";
   "query_embedding"; "match_count"].

(** PL/pgSQL's default [variable_conflict = error]: a name that could be
    both a variable and a column of a table in scope is an error. *)
Definition ambiguous_name : option string :=
  find (fun x => existsb (String.eqb x) feedback_columns
                 && existsb (String.eqb x) plpgsql_variables) unqualified_names.

(** PostgreSQL's [TRIM(s)]: removes leading and trailing spaces. *)
Fixpoint sql_ltrim (s : string) : string :=
  match s with
  | String " " s' => sql_ltrim s'
  | _ => s
  end.

Definition sql_trim (s : string) : string :=
  rev_string (sql_ltrim (rev_string (sql_ltrim s))).

Section Query.

(** pgvector's cosine distance [<=>]. *)
Variable cosine_distance : list Q -> list Q -> Q.

Definition project (r : FeedbackRow) (sim : Q) : MatchRow :=
  mkMatch (fb_id r) (fb_user_query r) (fb_ai_response r) (fb_feedback_type r)
          (fb_chat_id r) (fb_rating r) (fb_comment r) (fb_created_at r) sim.

(** The [WHERE] clause: a [NULL] embedding or comment makes it fail. *)
Definition where_clause (q : list Q) (t : Q) (r : FeedbackRow) : bool :=
  match fb_query_embedding r, fb_comment r with
  | Some e, Some c =>
      negb (Qle_bool (1 - cosine_distance e q)%Q t) && negb (String.eqb (sql_trim c) "")
  | _, _ => false
  end.

Definition order_key (q : list Q) (r : FeedbackRow) : Q :=
  match fb_query_embedding r with
  | Some e => cosine_distance e q
  | None => 0%Q
  end.

(** [ORDER BY] ascending key (a stable insertion sort; SQL leaves the order
    of equal keys open). *)
Fixpoint insert_by (key : FeedbackRow -> Q) (r : FeedbackRow) (l : list FeedbackRow)
  : list FeedbackRow :=
  match l with
  | [] => [r]
  | x :: l' => if Qle_bool (key r) (key x) then r :: l else x :: insert_by key r l'
  end.

Fixpoint sort_by (key : FeedbackRow -> Q) (l : list FeedbackRow) : list FeedbackRow :=
  match l with
  | [] => []
  | x :: l' => insert_by key x (sort_by key l')
  end.

(** The [SELECT .. FROM feedback WHERE .. ORDER BY .. LIMIT match_count]
    with [query_embedding] read as the parameter. *)
Definition select_query (table : list FeedbackRow) (q : list Q) (t : Q) (n : Z)
  : SqlResult :=
  if (n <? 0)%Z then Error NegativeLimit
  else
    let kept := sort_by (order_key q) (filter (where_clause q t) table) in
    Rows (map (fun r => project r (1 - order_key q r)%Q) (firstn (Z.to_nat n) kept)).

(** [match_feedback_by_embedding(query_embedding, match_threshold,
    match_count)]: the statement is checked for ambiguous names when it
    is planned, then run. *)
Definition match_feedback_by_embedding (table : list FeedbackRow) (q : list Q)
           (match_threshold : Q) (match_count : Z) : SqlResult :=
  match ambiguous_name with
  | Some x => Error (AmbiguousColumn x)
  | None => select_query table q match_threshold match_count
  end.

End Query.

End Feedback.

(* ------------------------------------------------------------------ *)
(** ** Concrete requests and services *)

Module Scenarios.

Definition good_file : File := mkFile "report.pdf" 4 ["%"; "P"; "D"; "F"]%char.
Definition bad_file : File := mkFile "broken.pdf" 1 ["x"]%char.

(** Services that all succeed, except pdf-parse on [bad_file]'s bytes;
    the splitter returns the whole text as one chunk. *)
Definition env_ok : Env :=
  {| pdf_lib := fun b =>
       match b with
       | ["x"%char] => Throw (JsError "Invalid PDF structure")
       | _ => Ret ("Quarterly results", JObj [])
       end;
     parse_clock := fun _ => 5;
     development := false;
     json_parse := fun _ => Ret (JObj []);
     new_splitter := fun _ => Ret tt;
     split_text := fun _ t => Ret [t];
     generate_embedding := fun _ _ => Ret [1%Q];
     db_insert := fun _ _ => InsOk |}.

(** Ten chunks per text; the fourth embedding call of the request fails. *)
Definition env_ten : Env :=
  {| pdf_lib := fun _ => Ret ("Quarterly results", JObj []);
     parse_clock := fun _ => 5;
     development := false;
     json_parse := fun _ => Ret (JObj [("title", JStr "Q3")]);
     new_splitter := fun _ => Ret tt;
     split_text := fun _ t => Ret (repeat t 10);
     generate_embedding := fun k _ =>
       if Nat.eqb k 3 then Throw (JsError "rate limited") else Ret [1%Q];
     db_insert := fun _ _ => InsOk |}.

Definition form (fs : list File) (metadata : option string) : FormData :=
  mkForm fs metadata None None None None.

Definition empty_state : Upload.UState := Upload.mkUState [] 0 0 0 0.

(** [env_ok] in development mode: a parse failure falls back to the mock
    parser. *)
Definition env_dev : Env :=
  {| pdf_lib := pdf_lib env_ok;
     parse_clock := parse_clock env_ok;
     development := true;
     json_parse := json_parse env_ok;
     new_splitter := new_splitter env_ok;
     split_text := split_text env_ok;
     generate_embedding := generate_embedding env_ok;
     db_insert := db_insert env_ok |}.

(** [env_ok] with a metadata string that parses to [null]. *)
Definition env_null : Env :=
  {| pdf_lib := pdf_lib env_ok;
     parse_clock := parse_clock env_ok;
     development := false;
     json_parse := fun _ => Ret JNull;
     new_splitter := new_splitter env_ok;
     split_text := split_text env_ok;
     generate_embedding := generate_embedding env_ok;
     db_insert := db_insert env_ok |}.

End Scenarios.

(* ------------------------------------------------------------------ *)
(** ** Helper predicates for the amended claims *)

Module Spec.

(** A file of the upload request reaches [documentsCount++]: it parses,
    its text is not blank, and the splitter yields at least one chunk. *)
Definition file_completes (env : Env) (p : Params) (f : File) : bool :=
  match parsePDF env (file_bytes f) (pdfParser p) (development env) with
  | Throw _ => false
  | Ret pr =>
      if blank (text pr) then false
      else match split_text env (make_splitter p) (text pr) with
           | Ret (_ :: _) => true
           | _ => false
           end
  end.

(** [null] and [undefined], the values whose property reads throw. *)
Definition nullish (v : jsval) : bool :=
  match v with JUndef | JNull => true | _ => false end.

(** A file whose parsing or splitting throws. *)
Definition file_fails (env : Env) (p : Params) (cfg : SplitterCfg) (f : File)
           (e : js_error) : Prop :=
  parsePDF env (file_bytes f) (pdfParser p) (development env) = Throw e
  \/ exists pr, parsePDF env (file_bytes f) (pdfParser p) (development env) = Ret pr
                /\ blank (text pr) = false /\ split_text env cfg (text pr) = Throw e.

Definition bump_embed (s : Upload.UState) : Upload.UState :=
  Upload.mkUState (Upload.db s) (S (Upload.embed_calls s)) (Upload.insert_calls s)
                  (Upload.totalChunks s) (Upload.documentsCount s).

Definition bump_insert (s : Upload.UState) : Upload.UState :=
  Upload.mkUState (Upload.db s) (S (Upload.embed_calls s)) (S (Upload.insert_calls s))
                  (Upload.totalChunks s) (Upload.documentsCount s).

Definition store (s : Upload.UState) (r : StoredRecord) : Upload.UState :=
  Upload.mkUState (app (Upload.db s) [r]) (S (Upload.embed_calls s))
                  (S (Upload.insert_calls s)) (S (Upload.totalChunks s))
                  (Upload.documentsCount s).

(** The record the chunk body builds for chunk [i] of [n]. *)
Definition record_ok (f : File) (n i : nat) (c : string) (r : StoredRecord) : Prop :=
  content r = c /\ chunk_id r = i + 1 /\ total_chunks r = n /\ source r = file_name f
  /\ lookup (rec_metadata r) "chunk_index" = Some (JNum (Z.of_nat i))
  /\ lookup (rec_metadata r) "total_chunks" = Some (JNum (Z.of_nat n)).

(** A row stored for file [f]: chunk [j] of the [chunks] its text was
    split into, with the fields [record_ok] describes. *)
Definition file_record (env : Env) (p : Params) (f : File) (r : StoredRecord) : Prop :=
  exists pr chunks j c,
    parsePDF env (file_bytes f) (pdfParser p) (development env) = Ret pr
    /\ blank (text pr) = false
    /\ split_text env (make_splitter p) (text pr) = Ret chunks
    /\ nth_error chunks j = Some c
    /\ record_ok f (length chunks) j c r.

End Spec.

(* ------------------------------------------------------------------ *)
(** ** The views and the setup check of [setup-feedback-table.sql] *)

Module FeedbackViews.

Import Feedback.

(** The [CHECK] constraints of the [feedback] table (a [NULL] rating
    passes its check, as a [CHECK] that is not false does). *)
Definition feedback_types : list string :=
  ["helpful"; "not_helpful"; "partial"; "detailed"].

Definition row_check (r : FeedbackRow) : bool :=
  existsb (String.eqb (fb_feedback_type r)) feedback_types
  && match fb_rating r with
     | None => true
     | Some k => (1 <=? k)%Z && (k <=? 5)%Z
     end.

(** [COUNT(CASE WHEN feedback_type = t THEN 1 END)] *)
Definition count_type (t : string) (rows : list FeedbackRow) : nat :=
  length (filter (fun r => String.eqb (fb_feedback_type r) t) rows).

Definition ratings (rows : list FeedbackRow) : list Z :=
  flat_map (fun r => match fb_rating r with Some k => [k] | None => [] end) rows.

(** [AVG(rating)]: [NULL] ratings are skipped, and the average of no
    value is [NULL].  The quotient is kept exact. *)
Definition avg_rating_of (rows : list FeedbackRow) : option Q :=
  match ratings rows with
  | [] => None
  | ks => Some (inject_Z (fold_left Z.add ks 0%Z) / inject_Z (Z.of_nat (length ks)))%Q
  end.

(** The non-[NULL] values of [created_at]. *)
Definition created (rows : list FeedbackRow) : list Z :=
  flat_map (fun r => match fb_created_at r with Some t => [t] | None => [] end) rows.

(** [MIN(created_at)] and [MAX(created_at)]: [NULL]s are skipped, and the
    result is [NULL] when no value is left. *)
Definition min_created (rows : list FeedbackRow) : option Z :=
  match created rows with
  | [] => None
  | t :: ts => Some (fold_left Z.min ts t)
  end.

Definition max_created (rows : list FeedbackRow) : option Z :=
  match created rows with
  | [] => None
  | t :: ts => Some (fold_left Z.max ts t)
  end.

Record FeedbackStats : Type := mkFeedbackStats {
  total_feedback : nat;
  helpful_count : nat;
  not_helpful_count : nat;
  partial_count : nat;
  detailed_count : nat;
  avg_rating : option Q;
  rated_responses : nat;
  first_feedback : option Z;
  latest_feedback : option Z
}.

(** [CREATE VIEW feedback_stats] *)
Definition feedback_stats (rows : list FeedbackRow) : FeedbackStats :=
  {| total_feedback := length rows;
     helpful_count := count_type "helpful" rows;
     not_helpful_count := count_type "not_helpful" rows;
     partial_count := count_type "partial" rows;
     detailed_count := count_type "detailed" rows;
     avg_rating := avg_rating_of rows;
     rated_responses :=
       length (filter (fun r => match fb_rating r with Some _ => true | None => false end)
                      rows);
     first_feedback := min_created rows;
     latest_feedback := max_created rows |}.

Record DailyTrend : Type := mkDailyTrend {
  feedback_date : option Z;
  d_total_feedback : nat;
  d_helpful_count : nat;
  d_not_helpful_count : nat;
  d_partial_count : nat;
  d_detailed_count : nat;
  d_avg_rating : option Q
}.

(** Equality of two [DATE] values as [GROUP BY] compares them: all
    [NULL]s fall into one group. *)
Definition opt_Z_eqb (a b : option Z) : bool :=
  match a, b with
  | None, None => true
  | Some x, Some y => Z.eqb x y
  | _, _ => false
  end.

Definition opt_Z_eq_dec (a b : option Z) : {a = b} + {a <> b}.
Proof. decide equality; apply Z.eq_dec. Defined.

(** [a] may come before [b] under [ORDER BY .. DESC], whose default in
    PostgreSQL is [NULLS FIRST]. *)
Definition desc_le (a b : option Z) : bool :=
  match a, b with
  | None, _ => true
  | Some _, None => false
  | Some x, Some y => (y <=? x)%Z
  end.

(** [ORDER BY feedback_date DESC]: insertion sort. *)
Fixpoint insert_desc (x : option Z) (l : list (option Z)) : list (option Z) :=
  match l with
  | [] => [x]
  | y :: l' => if desc_le x y then x :: l else y :: insert_desc x l'
  end.

Fixpoint sort_desc (l : list (option Z)) : list (option Z) :=
  match l with
  | [] => []
  | x :: l' => insert_desc x (sort_desc l')
  end.

Section Daily.

(** [DATE(t)]: the day of a timestamp (in the session's time zone). *)
Variable date_of : Z -> Z.

(** [DATE(created_at)], [NULL] for a [NULL] timestamp. *)
Definition day_key (r : FeedbackRow) : option Z := option_map date_of (fb_created_at r).

Definition rows_of_day (rows : list FeedbackRow) (d : option Z) : list FeedbackRow :=
  filter (fun r => opt_Z_eqb (day_key r) d) rows.

(** One row of the view for the group [DATE(created_at) = d]. *)
Definition day_trend (rows : list FeedbackRow) (d : option Z) : DailyTrend :=
  let g := rows_of_day rows d in
  {| feedback_date := d;
     d_total_feedback := length g;
     d_helpful_count := count_type "helpful" g;
     d_not_helpful_count := count_type "not_helpful" g;
     d_partial_count := count_type "partial" g;
     d_detailed_count := count_type "detailed" g;
     d_avg_rating := avg_rating_of g |}.

(** [CREATE VIEW daily_feedback_trends]: one group per distinct value of
    [DATE(created_at)], the groups ordered by it, descending. *)
Definition daily_feedback_trends (rows : list FeedbackRow) : list DailyTrend :=
  map (day_trend rows) (sort_desc (nodup opt_Z_eq_dec (map day_key rows))).

End Daily.

(** The [RAISE NOTICE] messages of the [DO] block. *)
Inductive Notice : Type :=
| NoticeSetupCompleted   (* 'Feedback table setup completed successfully!' *)
| NoticeReady            (* 'The feedback system is ready to use.' *)
| NoticeCleanedUp        (* 'Test record cleaned up.' *)
| NoticeSetupFailed      (* 'Setup verification failed.' *)
| NoticeViews            (* 'Available views: ...' *)
| NoticeFunctions.       (* 'Available functions: ...' *)

(** [INSERT INTO feedback ...]: the row gets the generated [id] and
    [created_at = NOW()]; a row failing a [CHECK] or repeating a primary
    key raises an error. *)
Definition insert_row (table : list FeedbackRow) (r : FeedbackRow)
  : option (list FeedbackRow) :=
  if row_check r && negb (existsb (fun x => Nat.eqb (fb_id x) (fb_id r)) table)
  then Some (app table [r]) else None.

Definition test_row (id : nat) (now : Z) : FeedbackRow :=
  mkFeedback id "Test query" "Test response" "helpful" (Some "test-setup") None
             (Some "Test feedback for setup verification") None (Some now).

Definition is_test_setup (r : FeedbackRow) : bool :=
  match fb_chat_id r with Some c => String.eqb c "test-setup" | None => false end.

(** The [DO $$ ... $$] block of lines 102-122, with [id] the value
    [uuid_generate_v4()] yields and [now] the value of [NOW()]; [None]
    is an error, which rolls the block back. *)
Definition setup_check (table : list FeedbackRow) (id : nat) (now : Z)
  : option (list FeedbackRow * list Notice) :=
  match insert_row table (test_row id now) with
  | None => None
  | Some t1 =>
      if existsb is_test_setup t1
      then Some (filter (fun r => negb (is_test_setup r)) t1,
                 [NoticeSetupCompleted; NoticeReady; NoticeCleanedUp;
                  NoticeViews; NoticeFunctions])
      else Some (t1, [NoticeSetupFailed; NoticeViews; NoticeFunctions])
  end.

End FeedbackViews.

(* ------------------------------------------------------------------ *)
(** ** [parsePDF] with its options object *)

Module ParseOptions.

(** [options?: { parser?, fallbackToMock?, requirements? }]: [None] is
    an absent property. *)
Record Options : Type := mkOptions {
  opt_parser : option string;
  opt_fallbackToMock : option bool;
  opt_requirements : option Requirements
}.

(** [parser = options?.requirements ? getBestParser(options.requirements)
    : 'pdf-parse'] of the destructuring of lines 319-322 (a requirements
    object is truthy). *)
Definition resolve_parser (options : option Options) : string :=
  match options with
  | None => "pdf-parse"
  | Some o =>
      match opt_parser o with
      | Some p => p
      | None =>
          match opt_requirements o with
          | Some req => getBestParser (Some req)
          | None => "pdf-parse"
          end
      end
  end.

(** [fallbackToMock = false] *)
Definition resolve_fallback (options : option Options) : bool :=
  match options with
  | None => false
  | Some o => match opt_fallbackToMock o with Some b => b | None => false end
  end.

(** [parsePDF(buffer, options)] *)
Definition parsePDF_opts (env : Env) (buffer : list ascii) (options : option Options)
  : outcome ParseResult :=
  parsePDF env buffer (resolve_parser options) (resolve_fallback options).

(** The options of the retry [parsePDF(buffer, { parser: 'mock' })]. *)
Definition mock_options : option Options := Some (mkOptions (Some "mock") None None).

End ParseOptions.

(* ------------------------------------------------------------------ *)
(** ** What the routes make of one file *)

Module PerFile.

(** The chunks a file contributes when it is processed without error:
    none for a blank text. *)
Definition file_chunks (env : Env) (p : Params) (cfg : SplitterCfg) (f : File)
  : list string :=
  match parsePDF env (file_bytes f) (pdfParser p) (development env) with
  | Throw _ => []
  | Ret pr =>
      if blank (text pr) then []
      else match split_text env cfg (text pr) with
           | Ret cs => cs
           | Throw _ => []
           end
  end.

(** The file is processed without error: it parses, and its text is
    blank or is split. *)
Definition file_ok (env : Env) (p : Params) (cfg : SplitterCfg) (f : File) : bool :=
  match parsePDF env (file_bytes f) (pdfParser p) (development env) with
  | Throw _ => false
  | Ret pr =>
      if blank (text pr) then true
      else match split_text env cfg (text pr) with
           | Ret _ => true
           | Throw _ => false
           end
  end.

Definition file_parse_time (env : Env) (p : Params) (f : File) : nat :=
  match parsePDF env (file_bytes f) (pdfParser p) (development env) with
  | Ret pr => parseTime pr
  | Throw _ => 0
  end.

(** A row the upload route builds: the object literal of lines 135-160
    for chunk [i] of a file of the request, with the metadata fields
    read as [gp]. *)
Definition built_row (env : Env) (p : Params) (metadata : jsval) (fs : list File)
           (r : StoredRecord) : Prop :=
  exists f pr chunks i c v (gp : string -> jsval),
    In f fs
    /\ parsePDF env (file_bytes f) (pdfParser p) (development env) = Ret pr
    /\ blank (text pr) = false
    /\ split_text env (make_splitter p) (text pr) = Ret chunks
    /\ nth_error chunks i = Some c
    /\ (forall k, get_prop metadata k = Ret (gp k))
    /\ r = Upload.chunk_record metadata f pr (length chunks) i c v
             (gp "title") (gp "author") (gp "doc_type") (gp "genre") (gp "topic")
             (gp "difficulty") (gp "tags") (gp "description").

(** The keys the route writes after [...metadata]. *)
Definition route_keys : list string :=
  ["chunk_index"; "total_chunks"; "filename"; "file_size"; "parser_used";
   "parse_time"; "pdf_metadata"].

(** A row of the chunk loop of file [f], started at index [i]. *)
Definition loop_row (metadata : jsval) (f : File) (pr : ParseResult) (n i : nat)
           (cs : list string) (r : StoredRecord) : Prop :=
  exists j c v (gp : string -> jsval),
    nth_error cs j = Some c
    /\ (forall k, get_prop metadata k = Ret (gp k))
    /\ r = Upload.chunk_record metadata f pr n (i + j) c v
             (gp "title") (gp "author") (gp "doc_type") (gp "genre") (gp "topic")
             (gp "difficulty") (gp "tags") (gp "description").

(** The rows stored for one file: strictly increasing [chunk_id]s, all
    with the file's name as [source]. *)
Definition file_rows_ordered (f : File) (l : list StoredRecord) : Prop :=
  Sorted lt (map chunk_id l) /\ Forall (fun r => source r = file_name f) l.

(** The number of chunks the files of a request are split into. *)
Definition chunk_total (env : Env) (p : Params) (fs : list File) : nat :=
  list_sum (map (fun f => length (PerFile.file_chunks env p (make_splitter p) f)) fs).

End PerFile.

(* ================================================================== *)
(** * Properties *)

(* ------------------------------------------------------------------ *)
(** ** Chunk statistics *)

Section FoldBounds.

Lemma fold_min_le_init (l : list nat) (a : nat) : fold_left Nat.min l a <= a.
Proof.
  revert a; induction l as [|x l IH]; intros a; simpl; [lia|].
  specialize (IH (Nat.min a x)); lia.
Qed.

Lemma fold_min_le_mem (l : list nat) (a x : nat) :
  In x l -> fold_left Nat.min l a <= x.
Proof.
  revert a; induction l as [|y l IH]; intros a Hin; simpl in *; [contradiction|].
  destruct Hin as [Hyx|Hin]; [subst y|now apply IH].
  pose proof (fold_min_le_init l (Nat.min a x)); lia.
Qed.

Lemma fold_min_mem (l : list nat) (a : nat) :
  fold_left Nat.min l a = a \/ In (fold_left Nat.min l a) l.
Proof.
  revert a; induction l as [|y l IH]; intros a; simpl; [now left|].
  destruct (IH (Nat.min a y)) as [E|E]; rewrite ?E; [|now right; right].
  destruct (Nat.min_spec a y) as [[_ ->]|[_ ->]]; [now left|now right; left].
Qed.

Lemma fold_max_ge_init (l : list nat) (a : nat) : a <= fold_left Nat.max l a.
Proof.
  revert a; induction l as [|x l IH]; intros a; simpl; [lia|].
  specialize (IH (Nat.max a x)); lia.
Qed.

Lemma fold_max_ge_mem (l : list nat) (a x : nat) :
  In x l -> x <= fold_left Nat.max l a.
Proof.
  revert a; induction l as [|y l IH]; intros a Hin; simpl in *; [contradiction|].
  destruct Hin as [Hyx|Hin]; [subst y|now apply IH].
  pose proof (fold_max_ge_init l (Nat.max a x)); lia.
Qed.

Lemma fold_max_mem (l : list nat) (a : nat) :
  fold_left Nat.max l a = a \/ In (fold_left Nat.max l a) l.
Proof.
  revert a; induction l as [|y l IH]; intros a; simpl; [now left|].
  destruct (IH (Nat.max a y)) as [E|E]; rewrite ?E; [|now right; right].
  destruct (Nat.max_spec a y) as [[_ ->]|[_ ->]]; [now right; left|now left].
Qed.

Lemma fold_add_sum (l : list nat) (a : nat) : fold_left Nat.add l a = a + list_sum l.
Proof.
  revert a; induction l as [|x l IH]; intros a; simpl; [lia|].
  rewrite IH; lia.
Qed.

Lemma sum_lower (l : list nat) (m : nat) :
  (forall x, In x l -> m <= x) -> length l * m <= list_sum l.
Proof.
  induction l as [|x l IH]; intros H; simpl; [lia|].
  pose proof (H x (or_introl eq_refl)).
  pose proof (IH (fun y Hy => H y (or_intror Hy))); lia.
Qed.

Lemma sum_upper (l : list nat) (m : nat) :
  (forall x, In x l -> x <= m) -> list_sum l <= length l * m.
Proof.
  induction l as [|x l IH]; intros H; simpl; [lia|].
  pose proof (H x (or_introl eq_refl)).
  pose proof (IH (fun y Hy => H y (or_intror Hy))); lia.
Qed.

Lemma round_div_bounds (a b : nat) :
  b <> 0 -> 2 * b * Preview.round_div a b <= 2 * a + b < 2 * b * (Preview.round_div a b + 1).
Proof.
  intros Hb; unfold Preview.round_div.
  pose proof (Nat.div_mod (2 * a + b) (2 * b) ltac:(lia)) as D.
  pose proof (Nat.mod_bound_pos (2 * a + b) (2 * b) ltac:(lia) ltac:(lia)) as B.
  nia.
Qed.

End FoldBounds.

Lemma previews_from_length (i : nat) (cs : list string) :
  length (Preview.previews_from i cs) = length cs.
Proof. revert i; induction cs; intros i; simpl; auto. Qed.

Lemma previews_from_nth (i k : nat) (cs : list string) (c : string) :
  nth_error cs k = Some c ->
  nth k (Preview.previews_from i cs) Preview.default_preview
  = Preview.mkPreview (i + k) c (String.length c).
Proof.
  revert i k; induction cs as [|c' cs IH]; intros i k H; [destruct k; discriminate|].
  destruct k as [|k]; simpl in *.
  - injection H as ->; now rewrite Nat.add_0_r.
  - rewrite (IH (S i) k H); f_equal; lia.
Qed.

Lemma last_default {A} (x : A) (l : list A) (d d' : A) :
  last (x :: l) d = last (x :: l) d'.
Proof.
  revert x; induction l as [|y l IH]; intros x; [reflexivity|].
  change (last (y :: l) d = last (y :: l) d'); apply IH.
Qed.

Lemma nth_error_last {A} (c : A) (cs : list A) :
  nth_error (c :: cs) (length cs) = Some (last (c :: cs) c).
Proof.
  revert c; induction cs as [|c' cs IH]; intros c; [reflexivity|].
  simpl length; change (nth_error (c' :: cs) (length cs) = Some (last (c' :: cs) c)).
  rewrite IH; f_equal; apply last_default.
Qed.

(** C5. For every non-empty sequence of chunks [c :: cs], the statistics
    of the preview route satisfy [min_length <= avg_length <= max_length];
    [total_chunks] is the length of the sequence; [avg_length] is the
    mean length rounded to the nearest integer (halves up);
    [min_length] and [max_length] are the least and the greatest chunk
    length; [first_chunk] and [last_chunk] describe the first and the
    last chunk. *)
Theorem chunk_stats_spec (c : string) (cs : list string) (tpt : nat)
        (parser : string) (em : list jsval) :
  let st := Preview.chunk_stats c cs tpt parser em in
  let lens := map String.length (c :: cs) in
  let n := length (c :: cs) in
  Preview.min_length st <= Preview.avg_length st <= Preview.max_length st
  /\ Preview.st_total_chunks st = n
  /\ 2 * n * Preview.avg_length st <= 2 * list_sum lens + n
     < 2 * n * (Preview.avg_length st + 1)
  /\ In (Preview.min_length st) lens
  /\ (forall l, In l lens -> Preview.min_length st <= l)
  /\ In (Preview.max_length st) lens
  /\ (forall l, In l lens -> l <= Preview.max_length st)
  /\ Preview.first_chunk st = Preview.mkPreview 0 c (String.length c)
  /\ Preview.last_chunk st
     = Preview.mkPreview (length cs) (last (c :: cs) c)
                         (String.length (last (c :: cs) c)).
Proof.
  intros st lens n.
  set (m := fold_left Nat.min (map String.length cs) (String.length c)).
  set (M := fold_left Nat.max (map String.length cs) (String.length c)).
  assert (Hm_le : forall l, In l lens -> m <= l).
  { intros l [<-|Hl]; [apply fold_min_le_init|now apply fold_min_le_mem]. }
  assert (HM_ge : forall l, In l lens -> l <= M).
  { intros l [<-|Hl]; [apply fold_max_ge_init|now apply fold_max_ge_mem]. }
  assert (Hm_in : In m lens).
  { destruct (fold_min_mem (map String.length cs) (String.length c)) as [E|E];
      [left; exact (eq_sym E)|right; exact E]. }
  assert (HM_in : In M lens).
  { destruct (fold_max_mem (map String.length cs) (String.length c)) as [E|E];
      [left; exact (eq_sym E)|right; exact E]. }
  assert (Hlen : length lens = n) by (unfold lens, n; now rewrite length_map).
  pose proof (sum_lower lens m Hm_le) as Lo.
  pose proof (sum_upper lens M HM_ge) as Hi.
  rewrite Hlen in Lo, Hi.
  assert (Havg : Preview.avg_length st = Preview.round_div (list_sum lens) n).
  { unfold st, Preview.chunk_stats; simpl.
    unfold Preview.sum_list; rewrite fold_add_sum; reflexivity. }
  assert (Hn : n <> 0) by (unfold n; simpl; lia).
  pose proof (round_div_bounds (list_sum lens) n Hn) as R.
  rewrite <- Havg in R.
  assert (Hmin : Preview.min_length st = m) by reflexivity.
  assert (Hmax : Preview.max_length st = M) by reflexivity.
  rewrite Hmin, Hmax.
  split; [split; nia|].
  split; [reflexivity|].
  split; [exact R|].
  do 4 (split; [assumption|]).
  split.
  - reflexivity.
  - change (Preview.last_chunk st) with
      (nth (length (Preview.previews_from 0 (c :: cs)) - 1)
           (Preview.previews_from 0 (c :: cs)) Preview.default_preview).
    rewrite previews_from_length.
    replace (length (c :: cs) - 1) with (length cs) by (simpl; lia).
    rewrite (previews_from_nth 0 (length cs) (c :: cs) (last (c :: cs) c)).
    + reflexivity.
    + apply nth_error_last.
Qed.

(* ------------------------------------------------------------------ *)
(** ** Parser factory and capability matching *)

(** C7 (evaluation at the failing inputs). [PDFParserFactory.create]
    reads [AVAILABLE_PARSERS[parserType]], which also finds the
    properties inherited from [Object.prototype]: for the unregistered
    name ["constructor"] it returns [new Object()] without failing, and
    for ["toString"] it throws a [TypeError] whose message lists no
    parser name.  Ordinary unregistered names get the enumerating error,
    and registered names their backend. *)
Theorem create_inherited_names :
  create "constructor" = Ret InstPlainObject
  /\ create "toString" = Throw (JsError "ParserClass is not a constructor")
  /\ create "pdfjs"
     = Throw (JsError "Parser 'pdfjs' not found. Available parsers: pdf-parse, mock")
  /\ create "pdf-parse" = Ret (InstParser PDFParseParser)
  /\ create "mock" = Ret (InstParser MockPDFParser).
Proof. repeat split; reflexivity. Qed.

Lemma meets_spec (f : PDFParserFeatures) (req : Requirements) :
  meets f req = true <-> (forall k, In (k, Some true) req -> feature f k = true).
Proof.
  unfold meets; rewrite forallb_forall; split.
  - intros H k Hin; exact (H _ Hin).
  - intros H [k [[|]|]] Hin; simpl; auto.
Qed.

Lemma meets_false (f : PDFParserFeatures) (req : Requirements) :
  meets f req = false -> exists k, In (k, Some true) req /\ feature f k = false.
Proof.
  unfold meets; induction req as [|[k [[|]|]] req IH]; simpl; try discriminate.
  - destruct (feature f k) eqn:E; simpl.
    + intros H; destruct (IH H) as [k' [Hin Hk]]; eauto.
    + intros _; eauto.
  - intros H; destruct (IH H) as [k' [Hin Hk]]; eauto.
  - intros H; destruct (IH H) as [k' [Hin Hk]]; eauto.
Qed.

Lemma first_meeting_spec (ps : list (string * PDFParserFeatures)) (req : Requirements) :
  (exists pre name feats post,
      ps = app pre ((name, feats) :: post)
      /\ (forall k, In (k, Some true) req -> feature feats k = true)
      /\ (forall p, In p pre ->
            exists k, In (k, Some true) req /\ feature (snd p) k = false)
      /\ first_meeting ps req = name)
  \/ ((forall p, In p ps ->
         exists k, In (k, Some true) req /\ feature (snd p) k = false)
      /\ first_meeting ps req = "pdf-parse").
Proof.
  induction ps as [|[name feats] ps IH]; simpl.
  - right; split; [intros p []|reflexivity].
  - destruct (meets feats req) eqn:Hm.
    + left; exists [], name, feats, ps; repeat split.
      * now apply meets_spec.
      * intros p [].
    + pose proof (meets_false _ _ Hm) as Hk.
      destruct IH as [(pre & nm & fs & post & E & Hs & Hpre & Hr)|(Hall & Hr)].
      * left; exists ((name, feats) :: pre), nm, fs, post; repeat split; auto.
        -- now rewrite E.
        -- intros p [<-|Hp]; auto.
      * right; split; auto.
        intros p [<-|Hp]; auto.
Qed.

(** C8. [getBestParser] with no requirements, or with an empty
    requirement object, returns ['pdf-parse']; for any requirements it
    returns the name of the first backend of the registry (in
    registration order) whose features include every capability
    required as [true], and ['pdf-parse'] when no backend has them
    all. *)
Theorem getBestParser_spec :
  getBestParser None = "pdf-parse"
  /\ getBestParser (Some []) = "pdf-parse"
  /\ forall req : Requirements,
      (exists pre name feats post,
          getAvailableParsers = app pre ((name, feats) :: post)
          /\ (forall k, In (k, Some true) req -> feature feats k = true)
          /\ (forall p, In p pre ->
                exists k, In (k, Some true) req /\ feature (snd p) k = false)
          /\ getBestParser (Some req) = name)
      \/ ((forall p, In p getAvailableParsers ->
             exists k, In (k, Some true) req /\ feature (snd p) k = false)
          /\ getBestParser (Some req) = "pdf-parse").
Proof.
  split; [reflexivity|]; split; [reflexivity|].
  intros req; exact (first_meeting_spec getAvailableParsers req).
Qed.

(* ------------------------------------------------------------------ *)
(** ** Form fields *)

Lemma int_or_nonzero (x : option string) (d : Z) : d <> 0%Z -> int_or x d <> 0%Z.
Proof.
  unfold int_or; destruct (parseInt x) as [z|]; auto.
  destruct (Z.eqb_spec z 0); auto.
Qed.

Lemma int_or_default (x : option string) (d : Z) :
  parseInt x = None \/ parseInt x = Some 0%Z -> int_or x d = d.
Proof. unfold int_or; intros [-> | ->]; reflexivity. Qed.

(** C9. In both routes ([read_params] embeds the identical lines of the
    two handlers), a [chunkSize] or [chunkOverlap] field whose
    [parseInt] is [NaN] or [0] becomes the default (5000, resp. 500);
    absent, empty and non-numeric fields parse to [NaN]; and neither
    parameter is ever 0. *)
Theorem read_params_zero_or_nan (fd : FormData) :
  ((parseInt (f_chunkSize fd) = None \/ parseInt (f_chunkSize fd) = Some 0%Z) ->
     chunkSize (read_params fd) = 5000%Z)
  /\ ((parseInt (f_chunkOverlap fd) = None \/ parseInt (f_chunkOverlap fd) = Some 0%Z) ->
     chunkOverlap (read_params fd) = 500%Z)
  /\ chunkSize (read_params fd) <> 0%Z
  /\ chunkOverlap (read_params fd) <> 0%Z
  /\ parseInt None = None
  /\ parseInt (Some "") = None
  /\ parseInt (Some "abc") = None.
Proof.
  split; [apply int_or_default|].
  split; [apply int_or_default|].
  split; [apply int_or_nonzero; discriminate|].
  split; [apply int_or_nonzero; discriminate|].
  repeat split; reflexivity.
Qed.

Lemma read_params_zero_or_nan_witness :
  parseInt (Some "0") = Some 0%Z /\ parseInt None = None
  /\ chunkSize (read_params (mkForm [] None None (Some "0") None None)) = 5000%Z
  /\ chunkOverlap (read_params (mkForm [] None None (Some "0") None None)) = 500%Z.
Proof.
  split; [reflexivity|]. split; [reflexivity|].
  destruct (read_params_zero_or_nan (mkForm [] None None (Some "0") None None))
    as [H1 [H2 _]].
  split; [apply H1; right; reflexivity|apply H2; left; reflexivity].
Defined.

(* ------------------------------------------------------------------ *)
(** ** The upload loops *)

Section UploadLoops.

Variable env : Env.
Variable p : Params.
Variable cfg : SplitterCfg.
Variable metadata : jsval.

Lemma try_catch_ret_tt (m : Upload.M unit) (s : Upload.UState) :
  exists s', Upload.try_catch m (fun _ => Upload.ret tt) s = (Ret tt, s').
Proof.
  unfold Upload.try_catch, Upload.ret.
  destruct (m s) as [[[]|e] s']; eauto.
Qed.

Lemma chunk_loop_ret (f : File) (pr : ParseResult) (n i : nat) (cs : list string)
      (s : Upload.UState) :
  exists s', Upload.chunk_loop env metadata f pr n i cs s = (Ret tt, s').
Proof.
  revert i s; induction cs as [|c cs IH]; intros i s; simpl; [unfold Upload.ret; eauto|].
  unfold Upload.bind.
  destruct (try_catch_ret_tt (Upload.chunk_body env metadata f pr n i c) s)
    as [s1 ->].
  apply IH.
Qed.

Lemma file_body_throw_state (f : File) (s s' : Upload.UState) (e : js_error) :
  Upload.file_body env p cfg metadata f s = (Throw e, s') -> s' = s.
Proof.
  unfold Upload.file_body, Upload.bind, Upload.lift, Upload.ret.
  destruct (parsePDF env (file_bytes f) (pdfParser p) (development env)) as [pr|e'].
  2: now intros [= _ <-].
  destruct (blank (text pr)); [discriminate|].
  destruct (split_text env cfg (text pr)) as [[|c cs]|e']; try discriminate.
  2: now intros [= _ <-].
  destruct (chunk_loop_ret f pr (length (c :: cs)) 0 (c :: cs) s) as [s1 E].
  rewrite E; unfold Upload.incr_documentsCount; discriminate.
Qed.

Lemma file_loop_ret (fs : list File) (s : Upload.UState) :
  exists s', Upload.file_loop env p cfg metadata fs s = (Ret tt, s').
Proof.
  revert s; induction fs as [|f fs IH]; intros s; simpl; [unfold Upload.ret; eauto|].
  unfold Upload.bind.
  destruct (try_catch_ret_tt (Upload.file_body env p cfg metadata f) s) as [s1 ->].
  apply IH.
Qed.

Lemma file_loop_app (l1 l2 : list File) (s : Upload.UState) :
  Upload.file_loop env p cfg metadata (app l1 l2) s
  = Upload.file_loop env p cfg metadata l2 (snd (Upload.file_loop env p cfg metadata l1 s)).
Proof.
  revert s; induction l1 as [|f l1 IH]; intros s; [reflexivity|].
  simpl; unfold Upload.bind.
  destruct (try_catch_ret_tt (Upload.file_body env p cfg metadata f) s) as [s1 ->].
  apply IH.
Qed.

Lemma file_body_fails (f : File) (e : js_error) (s : Upload.UState) :
  Spec.file_fails env p cfg f e -> Upload.file_body env p cfg metadata f s = (Throw e, s).
Proof.
  unfold Upload.file_body, Upload.bind, Upload.lift.
  intros [-> | (pr & -> & Hb & Hs)]; [reflexivity|].
  rewrite Hb, Hs; reflexivity.
Qed.

Lemma file_loop_skip (pre post : list File) (f : File) (e : js_error)
      (s : Upload.UState) :
  Spec.file_fails env p cfg f e ->
  Upload.file_loop env p cfg metadata (app pre (f :: post)) s
  = Upload.file_loop env p cfg metadata (app pre post) s.
Proof.
  intros Hf; rewrite !file_loop_app; simpl.
  unfold Upload.bind, Upload.try_catch.
  rewrite (file_body_fails f e _ Hf); reflexivity.
Qed.

End UploadLoops.

(* ------------------------------------------------------------------ *)
(** ** Request validation and per-file failures *)

(** C2 (counterexample). A preview request with one file and no
    [metadata] field is not rejected: it is processed and answered with
    chunk statistics. *)
Lemma preview_absent_metadata_accepted :
  files (Scenarios.form [Scenarios.good_file] None) <> []
  /\ f_metadata (Scenarios.form [Scenarios.good_file] None) = None
  /\ forall status e,
      Preview.preview Scenarios.env_ok (Scenarios.form [Scenarios.good_file] None)
      <> Preview.PreviewError status e.
Proof.
  split; [discriminate|]. split; [reflexivity|].
  intros status e H; vm_compute in H; discriminate H.
Qed.

(** C2 (amended). The preview route treats an absent [metadata] field as
    an empty object: its response is the one it gives when the field
    holds any JSON text that parses; it answers 400 at once only for an
    empty file list.  It is the upload route that answers 400 ("Metadata
    is required") to a request with files and no [metadata], before any
    file is parsed and without touching the state. *)
Theorem preview_metadata_optional (env : Env) (fd : FormData) (s : string) (m : jsval)
        (Hparse : json_parse env s = Ret m) :
  Preview.preview env (mkForm (files fd) None (f_splitterType fd) (f_chunkSize fd)
                              (f_chunkOverlap fd) (f_pdfParser fd))
  = Preview.preview env (mkForm (files fd) (Some s) (f_splitterType fd) (f_chunkSize fd)
                                (f_chunkOverlap fd) (f_pdfParser fd))
  /\ (files fd = [] -> Preview.preview env fd = Preview.PreviewError 400 "No files provided")
  /\ (forall st : Upload.UState, files fd <> [] -> f_metadata fd = None ->
        Upload.upload env fd st = (Ret (Upload.UploadError 400 "Metadata is required"), st)).
Proof.
  split; [|split].
  - unfold Preview.preview; simpl.
    destruct (files fd); [reflexivity|].
    destruct (String.eqb s ""); [reflexivity|].
    rewrite Hparse; reflexivity.
  - intros E; unfold Preview.preview; now rewrite E.
  - intros st Hf Hm; unfold Upload.upload, Upload.upload_body, Upload.try_catch.
    destruct (files fd); [contradiction|].
    rewrite Hm; reflexivity.
Qed.

Lemma preview_metadata_optional_witness :
  json_parse Scenarios.env_ok "{}" = Ret (JObj [])
  /\ Preview.preview Scenarios.env_ok (Scenarios.form [Scenarios.good_file] None)
     = Preview.preview Scenarios.env_ok (Scenarios.form [Scenarios.good_file] (Some "{}")).
Proof.
  split; [reflexivity|].
  exact (proj1 (preview_metadata_optional Scenarios.env_ok
                  (Scenarios.form [Scenarios.good_file] None) "{}" (JObj [])
                  eq_refl)).
Defined.

(** C4 (counterexample). In the preview route a parse failure of the
    first of two files aborts the request with a 400 naming that file,
    although the second file alone is processed successfully. *)
Lemma preview_file_failure_aborts :
  Preview.preview Scenarios.env_ok
    (Scenarios.form [Scenarios.bad_file; Scenarios.good_file] (Some "{}"))
  = Preview.PreviewError 400
      "Failed to process file broken.pdf: PDF-Parse failed: Invalid PDF structure"
  /\ exists st,
      Preview.preview Scenarios.env_ok (Scenarios.form [Scenarios.good_file] (Some "{}"))
      = Preview.PreviewOk st.
Proof.
  split; [vm_compute; reflexivity|].
  eexists; vm_compute; reflexivity.
Qed.

(** C4 (amended). In the upload route a file whose parsing or splitting
    throws is caught and skipped: the file loop over [pre ++ f :: post]
    has the same result and the same final state as over [pre ++ post].
    In the preview route the same failure ends the request with a 400
    response naming the file, whatever files follow it. *)
Theorem file_failure_isolation (env : Env) (p : Params) (cfg : SplitterCfg)
        (metadata : jsval) (pre post : list File) (f : File) (e : js_error)
        (s : Upload.UState) (Hfail : Spec.file_fails env p cfg f e) :
  Upload.file_loop env p cfg metadata (app pre (f :: post)) s
  = Upload.file_loop env p cfg metadata (app pre post) s
  /\ forall chunks tpt em,
      Preview.preview_loop env p cfg (f :: post) chunks tpt em
      = inl (Preview.file_error f e).
Proof.
  split; [exact (file_loop_skip env p cfg metadata pre post f e s Hfail)|].
  intros chunks tpt em; simpl.
  destruct Hfail as [-> | (pr & -> & Hb & Hs)]; [reflexivity|].
  rewrite Hb, Hs; reflexivity.
Qed.

Lemma file_failure_isolation_witness :
  Spec.file_fails Scenarios.env_ok (read_params (Scenarios.form [Scenarios.bad_file; Scenarios.good_file] (Some "{}")))
    (make_splitter (read_params (Scenarios.form [Scenarios.bad_file; Scenarios.good_file] (Some "{}")))) Scenarios.bad_file
    (JsError "PDF-Parse failed: Invalid PDF structure")
  /\ Upload.file_loop Scenarios.env_ok (read_params (Scenarios.form [Scenarios.bad_file; Scenarios.good_file] (Some "{}")))
       (make_splitter (read_params (Scenarios.form [Scenarios.bad_file; Scenarios.good_file] (Some "{}")))) (JObj [])
       [Scenarios.bad_file; Scenarios.good_file] Scenarios.empty_state
     = Upload.file_loop Scenarios.env_ok (read_params (Scenarios.form [Scenarios.bad_file; Scenarios.good_file] (Some "{}")))
         (make_splitter (read_params (Scenarios.form [Scenarios.bad_file; Scenarios.good_file] (Some "{}")))) (JObj [])
         [Scenarios.good_file] Scenarios.empty_state.
Proof.
  assert (H : Spec.file_fails Scenarios.env_ok (read_params (Scenarios.form [Scenarios.bad_file; Scenarios.good_file] (Some "{}")))
                (make_splitter (read_params (Scenarios.form [Scenarios.bad_file; Scenarios.good_file] (Some "{}")))) Scenarios.bad_file
                (JsError "PDF-Parse failed: Invalid PDF structure"))
    by (left; vm_compute; reflexivity).
  split; [exact H|].
  exact (proj1 (file_failure_isolation Scenarios.env_ok (read_params (Scenarios.form [Scenarios.bad_file; Scenarios.good_file] (Some "{}")))
                  (make_splitter (read_params (Scenarios.form [Scenarios.bad_file; Scenarios.good_file] (Some "{}")))) (JObj [])
                  [] [Scenarios.good_file] Scenarios.bad_file
                  (JsError "PDF-Parse failed: Invalid PDF structure")
                  Scenarios.empty_state H)).
Defined.

(* ------------------------------------------------------------------ *)
(** ** One iteration of the per-chunk loop *)

Lemma lookup_obj_set (fs : list (string * jsval)) (k k' : string) (v : jsval) :
  lookup (obj_set fs k v) k' = if String.eqb k k' then Some v else lookup fs k'.
Proof.
  induction fs as [|[k0 v0] fs IH]; simpl; [reflexivity|].
  destruct (String.eqb k0 k) eqn:E1.
  - apply String.eqb_eq in E1; subst k0; simpl.
    destruct (String.eqb k k'); reflexivity.
  - simpl; destruct (String.eqb k0 k') eqn:E2.
    + apply String.eqb_eq in E2; subst k0.
      destruct (String.eqb k k') eqn:E3; [|reflexivity].
      apply String.eqb_eq in E3; subst k; rewrite String.eqb_refl in E1; discriminate.
    + exact IH.
Qed.

Lemma get_prop_total (v : jsval) (k : string) :
  Spec.nullish v = false ->
  get_prop v k = Ret (match get_prop v k with Ret x => x | Throw _ => JUndef end).
Proof. destruct v; simpl; try discriminate; try reflexivity. destruct (lookup fields k); reflexivity. Qed.

Lemma chunk_step (env : Env) (metadata : jsval) (f : File) (pr : ParseResult)
      (n i : nat) (c : string) (s : Upload.UState) :
  Spec.nullish metadata = false ->
  exists ctx (r : list Q -> StoredRecord),
    (forall v, Spec.record_ok f n i c (r v))
    /\ Upload.try_catch (Upload.chunk_body env metadata f pr n i c)
                        (fun _ => Upload.ret tt) s
       = match generate_embedding env (Upload.embed_calls s) ctx with
         | Throw _ => (Ret tt, Spec.bump_embed s)
         | Ret v =>
             match db_insert env (Upload.insert_calls s) (r v) with
             | InsOk => (Ret tt, Spec.store s (r v))
             | _ => (Ret tt, Spec.bump_insert s)
             end
         end.
Proof.
  intros Hm.
  set (gp k := match get_prop metadata k with Ret x => x | Throw _ => JUndef end).
  assert (Hgp : forall k, get_prop metadata k = Ret (gp k)) by (intros k; now apply get_prop_total).
  exists (Upload.context_text (gp "title") (gp "author") (gp "topic") f c).
  exists (fun v => Upload.chunk_record metadata f pr n i c v (gp "title") (gp "author")
                     (gp "doc_type") (gp "genre") (gp "topic") (gp "difficulty")
                     (gp "tags") (gp "description")).
  split.
  - intros v; unfold Spec.record_ok; simpl.
    repeat split;
      unfold spread_with, obj_assign; simpl; rewrite !lookup_obj_set; reflexivity.
  - unfold Upload.try_catch, Upload.chunk_body, Upload.bind, Upload.lift.
    rewrite !Hgp.
    unfold Upload.generateEmbedding.
    destruct (generate_embedding env (Upload.embed_calls s) _) as [v|e]; [|reflexivity].
    unfold Upload.insert.
    cbn [Upload.insert_calls Upload.db Upload.embed_calls Upload.totalChunks
         Upload.documentsCount].
    destruct (db_insert env (Upload.insert_calls s) _); reflexivity.
Qed.

Lemma chunk_step_nullish (env : Env) (metadata : jsval) (f : File) (pr : ParseResult)
      (n i : nat) (c : string) (s : Upload.UState) :
  Spec.nullish metadata = true ->
  Upload.try_catch (Upload.chunk_body env metadata f pr n i c) (fun _ => Upload.ret tt) s
  = (Ret tt, s).
Proof. destruct metadata; try discriminate; reflexivity. Qed.

(** The chunk loop returns normally; the rows it stores are appended to
    the table, each counted once in [totalChunks], each built from one
    chunk of the loop with its position. *)
Lemma chunk_loop_stores (env : Env) (metadata : jsval) (f : File) (pr : ParseResult)
      (n : nat) (cs : list string) (i : nat) (s : Upload.UState) :
  exists s' new,
    Upload.chunk_loop env metadata f pr n i cs s = (Ret tt, s')
    /\ Upload.db s' = app (Upload.db s) new
    /\ Upload.totalChunks s' = Upload.totalChunks s + length new
    /\ Upload.documentsCount s' = Upload.documentsCount s
    /\ Forall (fun r => exists j c, nth_error cs j = Some c
                                    /\ Spec.record_ok f n (i + j) c r) new.
Proof.
  revert i s; induction cs as [|c cs IH]; intros i s.
  - exists s, []; simpl; rewrite app_nil_r; repeat split; auto; lia.
  - simpl; unfold Upload.bind.
    assert (Step : exists s1 new1,
               Upload.try_catch (Upload.chunk_body env metadata f pr n i c)
                 (fun _ => Upload.ret tt) s = (Ret tt, s1)
               /\ Upload.db s1 = app (Upload.db s) new1
               /\ Upload.totalChunks s1 = Upload.totalChunks s + length new1
               /\ Upload.documentsCount s1 = Upload.documentsCount s
               /\ Forall (Spec.record_ok f n i c) new1).
    { destruct (Spec.nullish metadata) eqn:Hm.
      - exists s, []; rewrite chunk_step_nullish by exact Hm.
        rewrite app_nil_r; repeat split; auto; lia.
      - destruct (chunk_step env metadata f pr n i c s Hm) as (ctx & r & Hr & ->).
        destruct (generate_embedding env (Upload.embed_calls s) ctx) as [v|e].
        + destruct (db_insert env (Upload.insert_calls s) (r v)).
          * exists (Spec.store s (r v)), [r v]; simpl; repeat split; auto; lia.
          * exists (Spec.bump_insert s), []; simpl; rewrite app_nil_r;
              repeat split; auto; lia.
          * exists (Spec.bump_insert s), []; simpl; rewrite app_nil_r;
              repeat split; auto; lia.
        + exists (Spec.bump_embed s), []; simpl; rewrite app_nil_r;
            repeat split; auto; lia. }
    destruct Step as (s1 & new1 & -> & Hdb1 & Ht1 & Hd1 & Hf1).
    destruct (IH (S i) s1) as (s2 & new2 & E & Hdb2 & Ht2 & Hd2 & Hf2).
    exists s2, (app new1 new2); rewrite E; repeat split.
    + rewrite Hdb2, Hdb1, app_assoc; reflexivity.
    + rewrite Ht2, Ht1, length_app; lia.
    + rewrite Hd2, Hd1; reflexivity.
    + apply Forall_app; split.
      * eapply Forall_impl; [|exact Hf1]; intros r Hr.
        exists 0, c; rewrite Nat.add_0_r; split; [reflexivity|exact Hr].
      * eapply Forall_impl; [|exact Hf2]; intros r (j & c' & Hj & Hr).
        exists (S j), c'; split; [exact Hj|].
        replace (i + S j) with (S i + j) by lia; exact Hr.
Qed.

(** One iteration of the file loop. *)
Lemma file_step_stores (env : Env) (p : Params) (metadata : jsval) (f : File)
      (s : Upload.UState) :
  exists s' new,
    Upload.try_catch (Upload.file_body env p (make_splitter p) metadata f)
                     (fun _ => Upload.ret tt) s = (Ret tt, s')
    /\ Upload.db s' = app (Upload.db s) new
    /\ Upload.totalChunks s' = Upload.totalChunks s + length new
    /\ Upload.documentsCount s'
       = Upload.documentsCount s + (if Spec.file_completes env p f then 1 else 0)
    /\ Forall (Spec.file_record env p f) new.
Proof.
  unfold Upload.try_catch, Upload.file_body, Upload.bind, Upload.lift, Spec.file_completes.
  destruct (parsePDF env (file_bytes f) (pdfParser p) (development env)) as [pr|e] eqn:Hp.
  2:{ exists s, []; rewrite app_nil_r; repeat split; auto; lia. }
  destruct (blank (text pr)) eqn:Hb.
  { exists s, []; unfold Upload.ret; rewrite app_nil_r; repeat split; auto; lia. }
  destruct (split_text env (make_splitter p) (text pr)) as [[|c cs]|e] eqn:Hs.
  - exists s, []; unfold Upload.ret; rewrite app_nil_r; repeat split; auto; lia.
  - destruct (chunk_loop_stores env metadata f pr (length (c :: cs)) (c :: cs) 0 s)
      as (s1 & new & E & Hdb & Ht & Hd & Hf).
    rewrite E; unfold Upload.incr_documentsCount; simpl.
    exists (Upload.mkUState (Upload.db s1) (Upload.embed_calls s1) (Upload.insert_calls s1)
                            (Upload.totalChunks s1) (S (Upload.documentsCount s1))), new.
    simpl; repeat split; auto; try lia.
    eapply Forall_impl; [|exact Hf]; intros r (j & c' & Hj & Hr).
    exists pr, (c :: cs), j, c'.
    split; [exact Hp|split; [exact Hb|split; [exact Hs|split; [exact Hj|exact Hr]]]].
  - exists s, []; rewrite app_nil_r; repeat split; auto; lia.
Qed.

Lemma file_loop_stores (env : Env) (p : Params) (metadata : jsval) (fs : list File)
      (s : Upload.UState) :
  exists s' new,
    Upload.file_loop env p (make_splitter p) metadata fs s = (Ret tt, s')
    /\ Upload.db s' = app (Upload.db s) new
    /\ Upload.totalChunks s' = Upload.totalChunks s + length new
    /\ Upload.documentsCount s'
       = Upload.documentsCount s + length (filter (Spec.file_completes env p) fs)
    /\ Forall (fun r => exists f, In f fs /\ Spec.file_record env p f r) new.
Proof.
  revert s; induction fs as [|f fs IH]; intros s.
  - exists s, []; simpl; rewrite app_nil_r; repeat split; auto; lia.
  - simpl; unfold Upload.bind.
    destruct (file_step_stores env p metadata f s) as (s1 & new1 & -> & Hdb1 & Ht1 & Hd1 & Hf1).
    destruct (IH s1) as (s2 & new2 & E & Hdb2 & Ht2 & Hd2 & Hf2).
    exists s2, (app new1 new2); rewrite E; repeat split.
    + rewrite Hdb2, Hdb1, app_assoc; reflexivity.
    + rewrite Ht2, Ht1, length_app; lia.
    + rewrite Hd2, Hd1; destruct (Spec.file_completes env p f); simpl; lia.
    + apply Forall_app; split.
      * eapply Forall_impl; [|exact Hf1]; intros r Hr; exists f; split; [left|]; auto.
      * eapply Forall_impl; [|exact Hf2]; intros r (g & Hg & Hr); exists g; split; [right|]; auto.
Qed.

Lemma upload_stores (env : Env) (fd : FormData) (s : Upload.UState) :
  exists new,
    Upload.db (snd (Upload.upload env fd s)) = app (Upload.db s) new
    /\ Forall (fun r => exists f, In f (files fd)
                                  /\ Spec.file_record env (read_params fd) f r) new
    /\ forall d c m, fst (Upload.upload env fd s) = Ret (Upload.UploadOk d c m) ->
         d = length (filter (Spec.file_completes env (read_params fd)) (files fd))
         /\ c = length new.
Proof.
  unfold Upload.upload, Upload.upload_body, Upload.try_catch, Upload.bind,
    Upload.lift, Upload.ret.
  destruct (files fd) as [|f0 fs] eqn:Hf.
  { exists []; rewrite app_nil_r; repeat split; auto; discriminate. }
  destruct (f_metadata fd) as [ms|].
  2:{ exists []; rewrite app_nil_r; repeat split; auto; discriminate. }
  destruct (String.eqb ms "").
  { exists []; rewrite app_nil_r; repeat split; auto; discriminate. }
  destruct (json_parse env ms) as [m|e].
  2:{ exists []; rewrite app_nil_r; repeat split; auto; discriminate. }
  unfold Upload.reset_counters.
  destruct (new_splitter env (make_splitter (read_params fd))) as [u|e].
  2:{ exists []; simpl; rewrite app_nil_r; repeat split; auto; discriminate. }
  destruct (file_loop_stores env (read_params fd) m (f0 :: fs)
              (Upload.mkUState (Upload.db s) (Upload.embed_calls s)
                               (Upload.insert_calls s) 0 0))
    as (s1 & new & E & Hdb & Ht & Hd & Hall).
  rewrite E; unfold Upload.get_state; simpl.
  exists new; split; [rewrite Hdb; reflexivity|split; [exact Hall|]].
  intros d0 c0 msg Hr; injection Hr as <- <- _.
  simpl in Ht, Hd; split; [exact Hd|exact Ht].
Qed.

(** C3 (counterexample). One file whose parsing fails: the upload
    succeeds with [documentsCount = 0], not the one file attempted. *)
Lemma upload_counts_failed_file :
  fst (Upload.upload Scenarios.env_ok (Scenarios.form [Scenarios.bad_file] (Some "{}"))
         Scenarios.empty_state)
  = Ret (Upload.UploadOk 0 0 "Successfully processed 0 documents with 0 chunks").
Proof. vm_compute; reflexivity. Qed.

(** C3 (amended). Once a request has files, a non-empty [metadata] that
    parses and a splitter that accepts its options, the upload route
    answers [success: true] with [documentsCount] the number of files
    that parsed to a non-blank text split into at least one chunk, and
    [chunksCount] the number of rows it stored, whatever chunks or files
    failed on the way. *)
Theorem upload_counts (env : Env) (fd : FormData) (s : Upload.UState)
        (ms : string) (m : jsval)
        (Hfiles : files fd <> []) (Hmeta : f_metadata fd = Some ms) (Hne : ms <> "")
        (Hjson : json_parse env ms = Ret m)
        (Hsplit : new_splitter env (make_splitter (read_params fd)) = Ret tt) :
  exists s' new,
    Upload.upload env fd s
    = (Ret (Upload.UploadOk
              (length (filter (Spec.file_completes env (read_params fd)) (files fd)))
              (length new)
              ("Successfully processed "
               ++ nat_to_string (length (filter (Spec.file_completes env (read_params fd))
                                               (files fd)))
               ++ " documents with " ++ nat_to_string (length new) ++ " chunks")), s')
    /\ Upload.db s' = app (Upload.db s) new.
Proof.
  destruct (upload_stores env fd s) as (new & Hdb & _ & Hcnt).
  revert Hdb Hcnt.
  unfold Upload.upload, Upload.upload_body, Upload.try_catch, Upload.bind,
    Upload.lift, Upload.ret.
  destruct (files fd) as [|f0 fs]; [contradiction|].
  rewrite Hmeta.
  destruct (String.eqb_spec ms ""); [contradiction|].
  rewrite Hjson; unfold Upload.reset_counters; rewrite Hsplit.
  destruct (file_loop_ret env (read_params fd) (make_splitter (read_params fd)) m
              (f0 :: fs) (Upload.mkUState (Upload.db s) (Upload.embed_calls s)
                                          (Upload.insert_calls s) 0 0)) as [s1 E].
  rewrite E; unfold Upload.get_state; simpl.
  intros Hdb Hcnt.
  destruct (Hcnt _ _ _ eq_refl) as [-> ->].
  exists s1, new; split; [reflexivity|exact Hdb].
Qed.

Lemma upload_counts_witness :
  exists s' new,
    Upload.upload Scenarios.env_ok (Scenarios.form [Scenarios.bad_file; Scenarios.good_file]
                                      (Some "{}")) Scenarios.empty_state
    = (Ret (Upload.UploadOk
              (length (filter (Spec.file_completes Scenarios.env_ok
                                 (read_params (Scenarios.form [Scenarios.bad_file; Scenarios.good_file] (Some "{}"))))
                         [Scenarios.bad_file; Scenarios.good_file]))
              (length new)
              ("Successfully processed "
               ++ nat_to_string (length (filter (Spec.file_completes Scenarios.env_ok
                                                   (read_params (Scenarios.form [Scenarios.bad_file; Scenarios.good_file] (Some "{}"))))
                                           [Scenarios.bad_file; Scenarios.good_file]))
               ++ " documents with " ++ nat_to_string (length new) ++ " chunks")), s')
    /\ Upload.db s' = app (Upload.db Scenarios.empty_state) new.
Proof.
  apply (upload_counts Scenarios.env_ok
           (Scenarios.form [Scenarios.bad_file; Scenarios.good_file] (Some "{}"))
           Scenarios.empty_state "{}" (JObj [])).
  - discriminate.
  - reflexivity.
  - discriminate.
  - reflexivity.
  - reflexivity.
Defined.

(** C10. Every row the upload route stores comes from a file [f] of the
    request whose text was split into [chunks]: it holds chunk [j], its
    [total_chunks] column and its [metadata.total_chunks] are
    [length chunks], its [chunk_id] is [j + 1] and its
    [metadata.chunk_index] is [j]; hence
    [1 <= chunk_id <= total_chunks]. *)
Theorem upload_record_positions (env : Env) (fd : FormData) (s : Upload.UState) :
  exists new,
    Upload.db (snd (Upload.upload env fd s)) = app (Upload.db s) new
    /\ Forall (fun r =>
         exists f pr chunks j,
           In f (files fd)
           /\ parsePDF env (file_bytes f) (pdfParser (read_params fd)) (development env)
              = Ret pr
           /\ split_text env (make_splitter (read_params fd)) (text pr) = Ret chunks
           /\ nth_error chunks j = Some (content r)
           /\ total_chunks r = length chunks
           /\ lookup (rec_metadata r) "total_chunks"
              = Some (JNum (Z.of_nat (length chunks)))
           /\ chunk_id r = j + 1
           /\ lookup (rec_metadata r) "chunk_index" = Some (JNum (Z.of_nat j))
           /\ 1 <= chunk_id r <= total_chunks r) new.
Proof.
  destruct (upload_stores env fd s) as (new & Hdb & Hall & _).
  exists new; split; [exact Hdb|].
  eapply Forall_impl; [|exact Hall].
  intros r (f & Hin & pr & chunks & j & c & Hp & _ & Hs & Hj & Hc & Hid & Ht & Hsrc & Hci & Htc).
  exists f, pr, chunks, j.
  assert (j < length chunks) by (apply nth_error_Some; congruence).
  subst c; repeat split; auto; lia.
Qed.

Lemma filter_map_S_length (good : nat -> bool) (l : list nat) :
  length (filter good (map S l)) = length (filter (fun k => good (S k)) l).
Proof. induction l as [|k l IH]; simpl; [reflexivity|destruct (good (S k)); simpl; lia]. Qed.

Lemma count_seq_succ (good : nat -> bool) (n : nat) :
  length (filter good (seq 0 (S n)))
  = (if good 0 then 1 else 0) + length (filter (fun k => good (S k)) (seq 0 n)).
Proof.
  cbn [seq]; rewrite <- seq_shift; simpl.
  destruct (good 0); simpl; rewrite filter_map_S_length; reflexivity.
Qed.

(** With an object as metadata and every insert succeeding, the chunk
    loop counts exactly the chunks whose embedding call succeeds: the
    [k]-th chunk uses embedding call [embed_calls s + k]. *)
Lemma chunk_loop_count (env : Env) (metadata : jsval) (f : File) (pr : ParseResult)
      (n : nat) (cs : list string) (i : nat) (s : Upload.UState) (good : nat -> bool) :
  Spec.nullish metadata = false ->
  (forall k ctx, k < length cs ->
     match generate_embedding env (Upload.embed_calls s + k) ctx with
     | Ret _ => good k = true
     | Throw _ => good k = false
     end) ->
  (forall k r, Upload.insert_calls s <= k -> db_insert env k r = InsOk) ->
  exists s',
    Upload.chunk_loop env metadata f pr n i cs s = (Ret tt, s')
    /\ Upload.totalChunks s' = Upload.totalChunks s + length (filter good (seq 0 (length cs)))
    /\ Upload.documentsCount s' = Upload.documentsCount s.
Proof.
  intros Hm; revert i s good; induction cs as [|c cs IH]; intros i s good Hemb Hins.
  - exists s; simpl; repeat split; lia.
  - simpl; unfold Upload.bind.
    destruct (chunk_step env metadata f pr n i c s Hm) as (ctx & r & _ & ->).
    assert (H0 := Hemb 0 ctx ltac:(simpl; lia)); rewrite Nat.add_0_r in H0.
    assert (Step : exists s1,
               match generate_embedding env (Upload.embed_calls s) ctx with
               | Throw _ => (Ret tt, Spec.bump_embed s)
               | Ret v =>
                   match db_insert env (Upload.insert_calls s) (r v) with
                   | InsOk => (Ret tt, Spec.store s (r v))
                   | _ => (Ret tt, Spec.bump_insert s)
                   end
               end = (Ret tt, s1)
               /\ Upload.embed_calls s1 = S (Upload.embed_calls s)
               /\ Upload.insert_calls s <= Upload.insert_calls s1
               /\ Upload.totalChunks s1 = Upload.totalChunks s + (if good 0 then 1 else 0)
               /\ Upload.documentsCount s1 = Upload.documentsCount s).
    { destruct (generate_embedding env (Upload.embed_calls s) ctx) as [v|e].
      - rewrite H0, (Hins _ (r v) (le_n _)).
        exists (Spec.store s (r v)); simpl; repeat split; lia.
      - rewrite H0; exists (Spec.bump_embed s); simpl; repeat split; lia. }
    destruct Step as (s1 & -> & He1 & Hi1 & Ht1 & Hd1).
    destruct (IH (S i) s1 (fun k => good (S k))) as (s2 & E & Ht2 & Hd2).
    + intros k ctx' Hk; rewrite He1.
      replace (S (Upload.embed_calls s) + k) with (Upload.embed_calls s + S k) by lia.
      apply Hemb; simpl; lia.
    + intros k r' Hk; apply Hins; lia.
    + exists s2; rewrite E; split; [reflexivity|split].
      * pose proof (count_seq_succ good (length cs)) as Hc.
        rewrite Ht2, Ht1; simpl in Hc |- *; lia.
      * rewrite Hd2, Hd1; reflexivity.
Qed.

(** Unfolds the state updates of one chunk. *)
Ltac ust :=
  unfold Spec.store, Spec.bump_insert, Spec.bump_embed;
  cbn [Upload.db Upload.embed_calls Upload.insert_calls Upload.totalChunks
       Upload.documentsCount length chunk_id Upload.chunk_record].

Ltac ust_all :=
  unfold Spec.store, Spec.bump_insert, Spec.bump_embed in *;
  cbn [Upload.db Upload.embed_calls Upload.insert_calls Upload.totalChunks
       Upload.documentsCount length chunk_id Upload.chunk_record] in *.

(** The chunk loop with the services' answers given by call number: the
    [k]-th embedding call of the loop succeeds when [emb_ok k], the
    [j]-th insert call answers [InsOk] when [ins_ok j] (an error result
    or a throw otherwise). Every chunk gets its embedding call, an insert
    is made for each successful embedding, and [totalChunks] counts
    exactly the rows appended, those whose insert succeeded. *)
Lemma chunk_loop_outcomes (env : Env) (metadata : jsval) (f : File) (pr : ParseResult)
      (n : nat) (cs : list string) (i : nat) (s : Upload.UState)
      (emb_ok ins_ok : nat -> bool) :
  Spec.nullish metadata = false ->
  (forall k ctx, k < length cs ->
     match generate_embedding env (Upload.embed_calls s + k) ctx with
     | Ret _ => emb_ok k = true
     | Throw _ => emb_ok k = false
     end) ->
  (forall j r,
     match db_insert env (Upload.insert_calls s + j) r with
     | InsOk => ins_ok j = true
     | _ => ins_ok j = false
     end) ->
  exists s' new,
    Upload.chunk_loop env metadata f pr n i cs s = (Ret tt, s')
    /\ Upload.embed_calls s' = Upload.embed_calls s + length cs
    /\ Upload.insert_calls s'
       = Upload.insert_calls s + length (filter emb_ok (seq 0 (length cs)))
    /\ Upload.db s' = app (Upload.db s) new
    /\ Upload.totalChunks s' = Upload.totalChunks s + length new
    /\ length new = length (filter ins_ok (seq 0 (length (filter emb_ok (seq 0 (length cs))))))
    /\ Upload.documentsCount s' = Upload.documentsCount s.
Proof.
  intros Hm; revert i s emb_ok ins_ok;
    induction cs as [|c cs IH]; intros i s emb_ok ins_ok Hemb Hins.
  - exists s, []; simpl; rewrite app_nil_r; repeat split; lia.
  - cbn [Upload.chunk_loop]; unfold Upload.bind.
    destruct (chunk_step env metadata f pr n i c s Hm) as (ctx & r & _ & ->).
    assert (H0 := Hemb 0 ctx ltac:(simpl; lia)); rewrite Nat.add_0_r in H0.
    pose proof (count_seq_succ emb_ok (length cs)) as Ce.
    destruct (generate_embedding env (Upload.embed_calls s) ctx) as [v|e].
    + assert (I0 := Hins 0 (r v)); rewrite Nat.add_0_r in I0.
      rewrite H0 in Ce; cbn [length]; rewrite Ce.
      set (E' := length (filter (fun k => emb_ok (S k)) (seq 0 (length cs)))).
      pose proof (count_seq_succ ins_ok E') as Ci.
      destruct (db_insert env (Upload.insert_calls s) (r v)) eqn:Ei;
        rewrite I0 in Ci.
      * destruct (IH (S i) (Spec.store s (r v)) (fun k => emb_ok (S k))
                    (fun j => ins_ok (S j))) as (s2 & new2 & E & He & Hi & Hdb & Ht & Hn & Hd).
        { intros k ctx' Hk; ust.
          replace (S (Upload.embed_calls s) + k) with (Upload.embed_calls s + S k) by lia.
          apply Hemb; simpl; lia. }
        { intros j r'; ust.
          replace (S (Upload.insert_calls s) + j) with (Upload.insert_calls s + S j) by lia.
          apply Hins. }
        exists s2, (r v :: new2); rewrite E; ust_all.
        split; [reflexivity|]. split; [lia|]. split; [fold E' in Hi; lia|].
        split; [rewrite Hdb, <- app_assoc; reflexivity|].
        split; [simpl; lia|]. split; [cbn [Nat.add length]; rewrite Ci; fold E' in Hn; lia|]. exact Hd.
      * destruct (IH (S i) (Spec.bump_insert s) (fun k => emb_ok (S k))
                    (fun j => ins_ok (S j))) as (s2 & new2 & E & He & Hi & Hdb & Ht & Hn & Hd).
        { intros k ctx' Hk; ust.
          replace (S (Upload.embed_calls s) + k) with (Upload.embed_calls s + S k) by lia.
          apply Hemb; simpl; lia. }
        { intros j r'; ust.
          replace (S (Upload.insert_calls s) + j) with (Upload.insert_calls s + S j) by lia.
          apply Hins. }
        exists s2, new2; rewrite E; ust_all.
        split; [reflexivity|]. split; [lia|]. split; [fold E' in Hi; lia|].
        split; [exact Hdb|]. split; [exact Ht|]. split; [cbn [Nat.add]; rewrite Ci; fold E' in Hn; lia|]. exact Hd.
      * destruct (IH (S i) (Spec.bump_insert s) (fun k => emb_ok (S k))
                    (fun j => ins_ok (S j))) as (s2 & new2 & E & He & Hi & Hdb & Ht & Hn & Hd).
        { intros k ctx' Hk; ust.
          replace (S (Upload.embed_calls s) + k) with (Upload.embed_calls s + S k) by lia.
          apply Hemb; simpl; lia. }
        { intros j r'; ust.
          replace (S (Upload.insert_calls s) + j) with (Upload.insert_calls s + S j) by lia.
          apply Hins. }
        exists s2, new2; rewrite E; ust_all.
        split; [reflexivity|]. split; [lia|]. split; [fold E' in Hi; lia|].
        split; [exact Hdb|]. split; [exact Ht|]. split; [cbn [Nat.add]; rewrite Ci; fold E' in Hn; lia|]. exact Hd.
    + rewrite H0 in Ce; cbn [length]; rewrite Ce.
      destruct (IH (S i) (Spec.bump_embed s) (fun k => emb_ok (S k)) ins_ok)
        as (s2 & new2 & E & He & Hi & Hdb & Ht & Hn & Hd).
      { intros k ctx' Hk; ust.
        replace (S (Upload.embed_calls s) + k) with (Upload.embed_calls s + S k) by lia.
        apply Hemb; simpl; lia. }
      { intros j r'; ust; apply Hins. }
      exists s2, new2; rewrite E; ust_all.
      split; [reflexivity|]. split; [lia|]. split; [simpl; lia|].
      split; [exact Hdb|]. split; [exact Ht|]. split; [cbn [Nat.add]; exact Hn|]. exact Hd.
Qed.

(** C1. Per-chunk failures are caught inside the chunk loop, which goes
    on with the next chunk of the same file. For any services and any
    chunk list, with an object as metadata: every chunk gets its
    embedding call, whatever the earlier ones answered; an insert is made
    for each successful embedding; a failed embedding or a failed insert
    (error result or throw) stores nothing; and [totalChunks] grows by
    exactly the number of rows stored. For one file split into 10
    chunks, with an object as metadata, where the embedding call of
    chunk #4 (index 3) fails and every other call and every insert
    succeeds, the upload route answers [success: true] with
    [documentsCount = 1] and [chunksCount = 9]. *)
Theorem upload_chunk_failure_isolated (env : Env) (fd : FormData) (s : Upload.UState)
        (f : File) (ms : string) (m : jsval) (pr : ParseResult) (chunks : list string)
        (Hfiles : files fd = [f]) (Hmeta : f_metadata fd = Some ms) (Hne : ms <> "")
        (Hjson : json_parse env ms = Ret m) (Hobj : Spec.nullish m = false)
        (Hsplitter : new_splitter env (make_splitter (read_params fd)) = Ret tt)
        (Hparse : parsePDF env (file_bytes f) (pdfParser (read_params fd)) (development env)
                  = Ret pr)
        (Hblank : blank (text pr) = false)
        (Hsplit : split_text env (make_splitter (read_params fd)) (text pr) = Ret chunks)
        (Hlen : length chunks = 10)
        (Hemb : forall k ctx, k < 10 ->
                  match generate_embedding env (Upload.embed_calls s + k) ctx with
                  | Ret _ => k <> 3
                  | Throw _ => k = 3
                  end)
        (Hins : forall k r, db_insert env k r = InsOk) :
  (forall env' metadata f' pr' n i cs s0 (emb_ok ins_ok : nat -> bool),
     Spec.nullish metadata = false ->
     (forall k ctx, k < length cs ->
        match generate_embedding env' (Upload.embed_calls s0 + k) ctx with
        | Ret _ => emb_ok k = true
        | Throw _ => emb_ok k = false
        end) ->
     (forall j r,
        match db_insert env' (Upload.insert_calls s0 + j) r with
        | InsOk => ins_ok j = true
        | _ => ins_ok j = false
        end) ->
     exists s1 new,
       Upload.chunk_loop env' metadata f' pr' n i cs s0 = (Ret tt, s1)
       /\ Upload.embed_calls s1 = Upload.embed_calls s0 + length cs
       /\ Upload.insert_calls s1
          = Upload.insert_calls s0 + length (filter emb_ok (seq 0 (length cs)))
       /\ Upload.db s1 = app (Upload.db s0) new
       /\ Upload.totalChunks s1 = Upload.totalChunks s0 + length new
       /\ length new
          = length (filter ins_ok (seq 0 (length (filter emb_ok (seq 0 (length cs))))))
       /\ Upload.documentsCount s1 = Upload.documentsCount s0)
  /\ exists s',
    Upload.upload env fd s
    = (Ret (Upload.UploadOk 1 9 "Successfully processed 1 documents with 9 chunks"), s').
Proof.
  split.
  { intros env' metadata f' pr' n i cs s0 emb_ok ins_ok Hm He Hi.
    exact (chunk_loop_outcomes env' metadata f' pr' n cs i s0 emb_ok ins_ok Hm He Hi). }
  unfold Upload.upload, Upload.upload_body, Upload.try_catch, Upload.bind,
    Upload.lift, Upload.ret.
  rewrite Hfiles, Hmeta.
  destruct (String.eqb_spec ms ""); [contradiction|].
  rewrite Hjson; unfold Upload.reset_counters; rewrite Hsplitter.
  cbn [Upload.file_loop].
  unfold Upload.bind, Upload.try_catch, Upload.file_body, Upload.bind, Upload.lift.
  rewrite Hparse, Hblank, Hsplit.
  destruct chunks as [|c0 cs]; [discriminate|].
  destruct (chunk_loop_count env m f pr (length (c0 :: cs)) (c0 :: cs) 0
              (Upload.mkUState (Upload.db s) (Upload.embed_calls s) (Upload.insert_calls s) 0 0)
              (fun k => negb (Nat.eqb k 3)) Hobj) as (s1 & E & Ht & Hd).
  - intros k ctx Hk; rewrite Hlen in Hk; cbn [Upload.embed_calls].
    specialize (Hemb k ctx Hk).
    destruct (generate_embedding env (Upload.embed_calls s + k) ctx).
    + destruct (Nat.eqb_spec k 3); [contradiction|reflexivity].
    + subst k; reflexivity.
  - intros k r _; apply Hins.
  - rewrite E; unfold Upload.incr_documentsCount, Upload.get_state, Upload.ret.
    rewrite Hlen in Ht; cbn in Ht, Hd.
    eexists; rewrite Ht, Hd; reflexivity.
Qed.

Lemma upload_chunk_failure_isolated_witness :
  (forall env' metadata f' pr' n i cs s0 (emb_ok ins_ok : nat -> bool),
     Spec.nullish metadata = false ->
     (forall k ctx, k < length cs ->
        match generate_embedding env' (Upload.embed_calls s0 + k) ctx with
        | Ret _ => emb_ok k = true
        | Throw _ => emb_ok k = false
        end) ->
     (forall j r,
        match db_insert env' (Upload.insert_calls s0 + j) r with
        | InsOk => ins_ok j = true
        | _ => ins_ok j = false
        end) ->
     exists s1 new,
       Upload.chunk_loop env' metadata f' pr' n i cs s0 = (Ret tt, s1)
       /\ Upload.embed_calls s1 = Upload.embed_calls s0 + length cs
       /\ Upload.insert_calls s1
          = Upload.insert_calls s0 + length (filter emb_ok (seq 0 (length cs)))
       /\ Upload.db s1 = app (Upload.db s0) new
       /\ Upload.totalChunks s1 = Upload.totalChunks s0 + length new
       /\ length new
          = length (filter ins_ok (seq 0 (length (filter emb_ok (seq 0 (length cs))))))
       /\ Upload.documentsCount s1 = Upload.documentsCount s0)
  /\ exists s',
    Upload.upload Scenarios.env_ten (Scenarios.form [Scenarios.good_file] (Some "{}"))
      Scenarios.empty_state
    = (Ret (Upload.UploadOk 1 9 "Successfully processed 1 documents with 9 chunks"), s').
Proof.
  eapply (upload_chunk_failure_isolated Scenarios.env_ten
            (Scenarios.form [Scenarios.good_file] (Some "{}")) Scenarios.empty_state
            Scenarios.good_file "{}" (JObj [("title", JStr "Q3")])).
  - reflexivity.
  - reflexivity.
  - discriminate.
  - reflexivity.
  - reflexivity.
  - reflexivity.
  - vm_compute; reflexivity.
  - vm_compute; reflexivity.
  - vm_compute; reflexivity.
  - reflexivity.
  - intros k ctx Hk; cbn.
    destruct k as [|[|[|[|k]]]]; cbn; try discriminate; try reflexivity; lia.
  - intros k r; reflexivity.
Defined.

(* ------------------------------------------------------------------ *)
(** ** The feedback similarity function *)

Section FeedbackQuery.

Variable dist : list Q -> list Q -> Q.

Lemma Qle_bool_false (a b : Q) : Qle_bool a b = false -> (b < a)%Q.
Proof.
  intros H; apply Qnot_le_lt; intros Hle; apply Qle_bool_iff in Hle; congruence.
Qed.

Lemma In_insert_by (key : Feedback.FeedbackRow -> Q) r l x :
  In x (Feedback.insert_by key r l) <-> r = x \/ In x l.
Proof.
  induction l as [|y l IH]; simpl; [tauto|].
  destruct (Qle_bool (key r) (key y)); simpl; [tauto|rewrite IH; tauto].
Qed.

Lemma In_sort_by (key : Feedback.FeedbackRow -> Q) l x :
  In x (Feedback.sort_by key l) <-> In x l.
Proof.
  induction l as [|y l IH]; simpl; [tauto|rewrite In_insert_by, IH; tauto].
Qed.

Lemma HdRel_insert_by (key : Feedback.FeedbackRow -> Q) a r l :
  (key a <= key r)%Q -> HdRel (fun x y => (key x <= key y)%Q) a l ->
  HdRel (fun x y => (key x <= key y)%Q) a (Feedback.insert_by key r l).
Proof.
  intros Har Hl; destruct l as [|y l]; simpl; [constructor; exact Har|].
  destruct (Qle_bool (key r) (key y)); constructor; auto; inversion Hl; auto.
Qed.

Lemma insert_by_sorted (key : Feedback.FeedbackRow -> Q) r l :
  Sorted (fun x y => (key x <= key y)%Q) l ->
  Sorted (fun x y => (key x <= key y)%Q) (Feedback.insert_by key r l).
Proof.
  induction l as [|y l IH]; intros Hs; simpl; [repeat constructor|].
  destruct (Qle_bool (key r) (key y)) eqn:E.
  - constructor; [exact Hs|constructor; apply Qle_bool_iff; exact E].
  - apply Qle_bool_false in E.
    inversion Hs as [|? ? Hs' Hhd]; subst.
    constructor; [apply IH; exact Hs'|].
    apply HdRel_insert_by; [apply Qlt_le_weak; exact E|exact Hhd].
Qed.

Lemma sort_by_sorted (key : Feedback.FeedbackRow -> Q) l :
  Sorted (fun x y => (key x <= key y)%Q) (Feedback.sort_by key l).
Proof. induction l; simpl; [constructor|apply insert_by_sorted; assumption]. Qed.

Lemma In_firstn {A} (x : A) n l : In x (firstn n l) -> In x l.
Proof. intros H; rewrite <- (firstn_skipn n l); apply in_or_app; left; exact H. Qed.

Lemma Sorted_firstn {A} (R : A -> A -> Prop) n l :
  Sorted R l -> Sorted R (firstn n l).
Proof.
  revert l; induction n as [|n IH]; intros l Hs; [constructor|].
  destruct l as [|x l]; [constructor|]; simpl.
  inversion Hs as [|? ? Hs' Hhd]; subst.
  constructor; [apply IH; exact Hs'|].
  destruct l as [|y l], n; simpl; constructor; inversion Hhd; auto.
Qed.

Lemma Sorted_map {A B} (R : A -> A -> Prop) (R' : B -> B -> Prop) (g : A -> B) l :
  (forall x y, R x y -> R' (g x) (g y)) -> Sorted R l -> Sorted R' (map g l).
Proof.
  intros Hg; induction l as [|x l IH]; intros Hs; simpl; [constructor|].
  inversion Hs as [|? ? Hs' Hhd]; subst.
  constructor; [apply IH; exact Hs'|].
  destruct l; simpl; constructor; inversion Hhd; auto.
Qed.

(** The [SELECT] of the function body, were its names resolved to the
    column and the parameter as intended: rows above the threshold with a
    comment that is not blank, most similar first, at most
    [match_count]. *)
Lemma select_query_spec table q t n rs :
  Feedback.select_query dist table q t n = Feedback.Rows rs ->
  Forall (fun m => (t < Feedback.similarity m)%Q
                   /\ exists c, Feedback.m_comment m = Some c
                                /\ Feedback.sql_trim c <> "") rs
  /\ Sorted (fun a b => (Feedback.similarity b <= Feedback.similarity a)%Q) rs
  /\ length rs <= Z.to_nat n.
Proof.
  unfold Feedback.select_query; destruct (n <? 0)%Z; [discriminate|].
  intros [= <-]; split; [|split].
  - apply Forall_forall; intros m Hm.
    apply in_map_iff in Hm as (r & <- & Hr).
    apply In_firstn, In_sort_by, filter_In in Hr as [_ Hw].
    unfold Feedback.where_clause, Feedback.order_key in *; simpl.
    destruct (Feedback.fb_query_embedding r) as [e|], (Feedback.fb_comment r) as [c|];
      try discriminate.
    apply andb_true_iff in Hw as [H1 H2].
    apply negb_true_iff in H1, H2.
    split; [apply Qle_bool_false; exact H1|].
    exists c; split; [reflexivity|apply String.eqb_neq; exact H2].
  - eapply Sorted_map; [|apply Sorted_firstn, sort_by_sorted].
    intros x y Hxy; simpl.
    apply Qplus_le_r, Qopp_le_compat; exact Hxy.
  - rewrite length_map, length_firstn; lia.
Qed.

End FeedbackQuery.

(** C6. [match_feedback_by_embedding] never returns rows: its parameter
    [query_embedding] has the name of a column of [feedback], and the
    unqualified [query_embedding] of the [WHERE] and [ORDER BY] clauses is
    ambiguous under PL/pgSQL's default [variable_conflict = error]; every
    call, whatever the table, vector, threshold and count, raises
    "column reference query_embedding is ambiguous". *)
Theorem match_feedback_by_embedding_ambiguous (dist : list Q -> list Q -> Q)
        (table : list Feedback.FeedbackRow) (q : list Q) (t : Q) (n : Z) :
  Feedback.match_feedback_by_embedding dist table q t n
  = Feedback.Error (Feedback.AmbiguousColumn "query_embedding").
Proof. reflexivity. Qed.

(* ================================================================== *)
(** * Further properties of the code *)

(* ------------------------------------------------------------------ *)
(** ** Parser registry, factory and [parsePDF] *)

Lemma prototype_not_class (k : string) (c : ParserClass) :
  assoc object_prototype_props k <> Some (PClass c).
Proof.
  unfold object_prototype_props; cbn [assoc].
  repeat match goal with
         | |- context [String.eqb ?a k] => destruct (String.eqb a k)
         end; intros H; discriminate H.
Qed.

Lemma create_parser (k : string) (c : ParserClass) :
  create k = Ret (InstParser c) -> k = class_name c.
Proof.
  unfold create, registry_get, AVAILABLE_PARSERS; cbn [assoc].
  destruct (String.eqb_spec "pdf-parse" k) as [<-|_]; [now intros [= <-]|].
  destruct (String.eqb_spec "mock" k) as [<-|_]; [now intros [= <-]|].
  destruct (assoc object_prototype_props k) as [[c'| | | | ]|] eqn:E; try discriminate.
  exfalso; exact (prototype_not_class k c' E).
Qed.

Lemma parse_with_used (env : Env) (k : string) (b : list ascii) (r : ParseResult) :
  parse_with env k b = Ret r -> parserUsed r = k /\ (k = "pdf-parse" \/ k = "mock").
Proof.
  unfold parse_with.
  destruct (create k) as [[c|]|e] eqn:E; simpl; try discriminate.
  apply create_parser in E; subst k.
  destruct c; simpl.
  - destruct (pdf_lib env b) as [[t md]|e]; [|discriminate].
    intros [= <-]; simpl; auto.
  - intros [= <-]; simpl; auto.
Qed.

Definition all_space (s : string) : bool := forallb is_space (list_ascii_of_string s).

Lemma trim_start_empty (s : string) : trim_start s = "" <-> all_space s = true.
Proof.
  induction s as [|c s IH]; simpl; [tauto|].
  unfold all_space in *; simpl.
  destruct (is_space c); simpl; [exact IH|split; discriminate].
Qed.

Lemma trim_start_head (s : string) :
  trim_start s = "" \/ exists c s', trim_start s = String c s' /\ is_space c = false.
Proof.
  induction s as [|c s IH]; simpl; [now left|].
  destruct (is_space c) eqn:E; [exact IH|right; eauto].
Qed.

Lemma list_ascii_rev_string (s : string) :
  list_ascii_of_string (rev_string s) = rev (list_ascii_of_string s).
Proof.
  induction s as [|c s IH]; simpl; [reflexivity|].
  rewrite <- IH; clear IH; induction (rev_string s) as [|c' t IH']; simpl;
    [reflexivity|now rewrite IH'].
Qed.

Lemma all_space_rev (s : string) : all_space (rev_string s) = all_space s.
Proof.
  unfold all_space; rewrite list_ascii_rev_string.
  induction (list_ascii_of_string s) as [|c l IH]; simpl; [reflexivity|].
  rewrite forallb_app, IH; simpl; rewrite andb_true_r, andb_comm; reflexivity.
Qed.

Lemma rev_string_empty (s : string) : rev_string s = "" -> s = "".
Proof.
  destruct s as [|c s]; simpl; [reflexivity|].
  destruct (rev_string s); discriminate.
Qed.

(** [s.trim()] is empty exactly when [s] is made of white space. *)
Lemma blank_all_space (s : string) : blank s = all_space s.
Proof.
  unfold blank, trim.
  destruct (all_space s) eqn:A.
  - apply trim_start_empty in A; rewrite A; reflexivity.
  - destruct (String.eqb_spec (rev_string (trim_start (rev_string (trim_start s)))) "")
      as [E|E]; [|reflexivity].
    apply rev_string_empty, trim_start_empty in E; rewrite all_space_rev in E.
    destruct (trim_start_head s) as [H|(c & s' & H & Hc)].
    + apply trim_start_empty in H; congruence.
    + rewrite H in E; unfold all_space in E; simpl in E; rewrite Hc in E; discriminate.
Qed.

Lemma mock_text_not_blank (b : list ascii) : blank (mock_text b) = false.
Proof. rewrite blank_all_space; reflexivity. Qed.

Lemma parse_with_mock (env : Env) (b : list ascii) :
  parse_with env "mock" b
  = Ret (mkParseResult (mock_text b)
           (JObj [("pages", JNum 1); ("title", JStr "Mock PDF Document");
                  ("author", JStr "Test Author"); ("creator", JStr "Mock Parser")])
           (parse_clock env MockPDFParser) "mock").
Proof. reflexivity. Qed.

(** The fallback of [parsePDF] is the call [parsePDF(buffer, { parser:
    'mock' })], which does not fall back again. *)
Lemma parsePDF_retry (env : Env) (b : list ascii) (k : string) (fb : bool) :
  parsePDF env b k fb
  = match parse_with env k b with
    | Ret r => Ret r
    | Throw e =>
        if fb && negb (String.eqb k "mock")
        then ParseOptions.parsePDF_opts env b ParseOptions.mock_options
        else Throw e
    end.
Proof.
  unfold parsePDF, ParseOptions.parsePDF_opts; simpl.
  destruct (parse_with env k b); [reflexivity|].
  destruct (fb && negb (String.eqb k "mock")); [|reflexivity].
  rewrite parse_with_mock; reflexivity.
Qed.

(** X1. Every entry [(name, features)] of [getAvailableParsers] can be
    created by [create(name)], and the instance carries that name and
    advertises those features. *)
Theorem getAvailableParsers_create (name : string) (feats : PDFParserFeatures)
        (Hin : In (name, feats) getAvailableParsers) :
  exists c, create name = Ret (InstParser c)
            /\ class_name c = name /\ supportsFeatures c = feats.
Proof.
  simpl in Hin; destruct Hin as [H|[H|[]]]; injection H as <- <-.
  - exists PDFParseParser; repeat split.
  - exists MockPDFParser; repeat split.
Qed.

Lemma getAvailableParsers_create_witness :
  In ("mock", supportsFeatures MockPDFParser) getAvailableParsers
  /\ exists c, create "mock" = Ret (InstParser c)
               /\ class_name c = "mock" /\ supportsFeatures c = supportsFeatures MockPDFParser.
Proof.
  split; [simpl; auto|].
  apply (getAvailableParsers_create "mock" (supportsFeatures MockPDFParser)).
  simpl; auto.
Defined.

(** X2. [getBestParser] always names a registered backend, so
    [create(getBestParser(requirements))] never throws and builds a
    parser of that name. *)
Theorem getBestParser_creatable (req : option Requirements) :
  exists c, create (getBestParser req) = Ret (InstParser c)
            /\ class_name c = getBestParser req.
Proof.
  destruct req as [req|]; [|exists PDFParseParser; split; reflexivity].
  unfold getBestParser, first_meeting, getAvailableParsers; simpl.
  destruct (meets (mkFeatures true true false false false false) req);
    [exists PDFParseParser; split; reflexivity|].
  destruct (meets (mkFeatures true true true false false false) req);
    [exists MockPDFParser|exists PDFParseParser]; split; reflexivity.
Qed.

(** X3. A requirement that no registered backend supports
    ([handleImages], [preserveFormatting] or [ocrCapability] set to
    [true]) makes [getBestParser] fall back to ['pdf-parse'], a backend
    that does not meet the requirements. *)
Theorem getBestParser_unsatisfiable (req : Requirements) (k : Feature)
        (Hk : In k [FHandleImages; FPreserveFormatting; FOcrCapability])
        (Hreq : In (k, Some true) req) :
  getBestParser (Some req) = "pdf-parse"
  /\ meets (supportsFeatures PDFParseParser) req = false.
Proof.
  assert (Hno : forall c, meets (supportsFeatures c) req = false).
  { intros c; destruct (meets (supportsFeatures c) req) eqn:E; [|reflexivity].
    apply meets_spec with (k := k) in E; [|exact Hreq].
    simpl in Hk; destruct c; destruct Hk as [<-|[<-|[<-|[]]]]; discriminate. }
  split; [|apply Hno].
  unfold getBestParser, first_meeting, getAvailableParsers; simpl.
  pose proof (Hno PDFParseParser) as H1; pose proof (Hno MockPDFParser) as H2.
  cbn [supportsFeatures] in H1, H2; rewrite H1, H2; reflexivity.
Qed.

Lemma getBestParser_unsatisfiable_witness :
  getBestParser (Some [(FExtractText, Some true); (FOcrCapability, Some true)]) = "pdf-parse"
  /\ meets (supportsFeatures PDFParseParser)
       [(FExtractText, Some true); (FOcrCapability, Some true)] = false.
Proof.
  apply (getBestParser_unsatisfiable _ FOcrCapability); simpl; auto.
Defined.

(** X4. When [parsePDF(buffer, { parser, fallbackToMock })] resolves,
    either the requested parser resolved, with its own name as
    [parserUsed] (['pdf-parse'] or ['mock']), or the requested parser
    threw, [fallbackToMock] is set, the requested parser is not
    ['mock'], and the result is the mock parser's: [parserUsed] is
    ['mock'] and the text is the mock text. *)
Theorem parsePDF_provenance (env : Env) (b : list ascii) (k : string) (fb : bool)
        (r : ParseResult) (Hok : parsePDF env b k fb = Ret r) :
  (parse_with env k b = Ret r /\ parserUsed r = k /\ (k = "pdf-parse" \/ k = "mock"))
  \/ (fb = true /\ k <> "mock" /\ (exists e, parse_with env k b = Throw e)
      /\ parserUsed r = "mock" /\ text r = mock_text b).
Proof.
  unfold parsePDF in Hok.
  destruct (parse_with env k b) as [r'|e] eqn:E.
  - injection Hok as <-; left; split; [reflexivity|exact (parse_with_used env k b r' E)].
  - destruct fb, (String.eqb_spec k "mock") as [Hm|Hm]; simpl in Hok; try discriminate.
    rewrite parse_with_mock in Hok; injection Hok as <-.
    right; split; [reflexivity|split; [exact Hm|split; [exists e; reflexivity|]]].
    split; reflexivity.
Qed.

Lemma parsePDF_provenance_witness :
  exists r, parsePDF Scenarios.env_ok (file_bytes Scenarios.bad_file) "pdf-parse" true = Ret r
  /\ ((parse_with Scenarios.env_ok "pdf-parse" (file_bytes Scenarios.bad_file) = Ret r
       /\ parserUsed r = "pdf-parse" /\ ("pdf-parse" = "pdf-parse" \/ "pdf-parse" = "mock"))
      \/ (true = true /\ "pdf-parse" <> "mock"
          /\ (exists e, parse_with Scenarios.env_ok "pdf-parse" (file_bytes Scenarios.bad_file)
                        = Throw e)
          /\ parserUsed r = "mock" /\ text r = mock_text (file_bytes Scenarios.bad_file))).
Proof.
  eexists; split; [reflexivity|].
  apply (parsePDF_provenance Scenarios.env_ok (file_bytes Scenarios.bad_file)
           "pdf-parse" true); reflexivity.
Defined.

(** X5. With [fallbackToMock] set (the routes set it in development),
    [parsePDF] never throws, whatever the parser name and the buffer:
    it returns the requested parser's result, or the mock parser's
    result, whose text is never blank. *)
Theorem parsePDF_fallback_total (env : Env) (b : list ascii) (k : string) :
  exists r, parsePDF env b k true = Ret r
            /\ (parse_with env k b = Ret r
                \/ (parserUsed r = "mock" /\ text r = mock_text b /\ blank (text r) = false)).
Proof.
  unfold parsePDF.
  destruct (parse_with env k b) as [r|e] eqn:E; [exists r; auto|].
  destruct (String.eqb_spec k "mock") as [->|Hk].
  - rewrite parse_with_mock in E; discriminate.
  - simpl; rewrite parse_with_mock.
    eexists; split; [reflexivity|right; split; [reflexivity|split; [reflexivity|]]].
    apply mock_text_not_blank.
Qed.

(** X6. [parsePDF(buffer, { requirements })] (no parser named, no
    fallback) parses with [getBestParser(requirements)]: it never fails
    with a parser-not-found error; it resolves with [parserUsed] the
    chosen backend, or throws a ['PDF-Parse failed: ...'] error. *)
Theorem parsePDF_requirements_only (env : Env) (b : list ascii) (req : Requirements) :
  match ParseOptions.parsePDF_opts env b
          (Some (ParseOptions.mkOptions None None (Some req))) with
  | Ret r => parserUsed r = getBestParser (Some req)
  | Throw e => exists m, e = JsError ("PDF-Parse failed: " ++ m)
  end.
Proof.
  unfold ParseOptions.parsePDF_opts; cbn [ParseOptions.resolve_parser
    ParseOptions.resolve_fallback ParseOptions.opt_parser ParseOptions.opt_requirements
    ParseOptions.opt_fallbackToMock].
  destruct (getBestParser_creatable (Some req)) as [c [Hc Hn]].
  unfold parsePDF, parse_with; rewrite Hc; simpl.
  destruct c; simpl in Hn |- *.
  - destruct (pdf_lib env b) as [[t md]|e]; simpl; [exact Hn|eauto].
  - exact Hn.
Qed.

(* ------------------------------------------------------------------ *)
(** ** The preview route *)

Section PreviewLoop.

Variable env : Env.
Variable p : Params.
Variable cfg : SplitterCfg.

Lemma preview_loop_ok (fs : list File) (acc : list string) (tpt : nat) (em : list jsval) :
  forallb (PerFile.file_ok env p cfg) fs = true ->
  exists em',
    Preview.preview_loop env p cfg fs acc tpt em
    = inr (app acc (concat (map (PerFile.file_chunks env p cfg) fs)),
           tpt + list_sum (map (PerFile.file_parse_time env p) fs),
           app em em')
    /\ length em' = length fs.
Proof.
  revert acc tpt em; induction fs as [|f fs IH]; intros acc tpt em Hok.
  - exists []; simpl; rewrite !app_nil_r, Nat.add_0_r; auto.
  - simpl in Hok |- *; apply andb_true_iff in Hok as [Hf Hok].
    unfold PerFile.file_ok, PerFile.file_chunks, PerFile.file_parse_time in *.
    destruct (parsePDF env (file_bytes f) (pdfParser p) (development env)) as [pr|e];
      [|discriminate].
    destruct (blank (text pr)).
    + edestruct IH as (em' & -> & Hl); [exact Hok|].
      eexists; split; [simpl; rewrite Nat.add_assoc, <- app_assoc; reflexivity|].
      simpl; lia.
    + destruct (split_text env cfg (text pr)) as [cs|e]; [|discriminate].
      edestruct IH as (em' & -> & Hl); [exact Hok|].
      eexists; split; [rewrite Nat.add_assoc, <- !app_assoc; reflexivity|].
      simpl; lia.
Qed.

Lemma preview_loop_inr (fs : list File) acc tpt em x :
  Preview.preview_loop env p cfg fs acc tpt em = inr x ->
  forallb (PerFile.file_ok env p cfg) fs = true.
Proof.
  revert acc tpt em; induction fs as [|f fs IH]; intros acc tpt em; [reflexivity|].
  simpl; unfold PerFile.file_ok.
  destruct (parsePDF env (file_bytes f) (pdfParser p) (development env)) as [pr|e];
    [|discriminate].
  destruct (blank (text pr)); [apply IH|].
  destruct (split_text env cfg (text pr)); [apply IH|discriminate].
Qed.

Lemma preview_loop_inl (fs : list File) acc tpt em r :
  Preview.preview_loop env p cfg fs acc tpt em = inl r -> forall st, r <> Preview.PreviewOk st.
Proof.
  revert acc tpt em; induction fs as [|f fs IH]; intros acc tpt em; [discriminate|].
  simpl.
  destruct (parsePDF env (file_bytes f) (pdfParser p) (development env)) as [pr|e];
    [|intros [= <-] st; discriminate].
  destruct (blank (text pr)); [apply IH|].
  destruct (split_text env cfg (text pr)); [apply IH|intros [= <-] st; discriminate].
Qed.

End PreviewLoop.

Lemma previews_from_contents (i : nat) (cs : list string) :
  map Preview.pv_content (Preview.previews_from i cs) = cs.
Proof. revert i; induction cs as [|c cs IH]; intros i; simpl; [|rewrite IH]; reflexivity. Qed.

Lemma previews_from_index (i k : nat) (cs : list string) (c : Preview.ChunkPreview) :
  nth_error (Preview.previews_from i cs) k = Some c -> Preview.index c = i + k.
Proof.
  revert i k; induction cs as [|c' cs IH]; intros i k H; [destruct k; discriminate|].
  destruct k as [|k]; simpl in H.
  - injection H as <-; simpl; lia.
  - rewrite (IH (S i) k H); lia.
Qed.

(** X7. A successful preview response means that every file was
    processed without error; its chunk list is the concatenation, in
    file order, of the chunks of every file, each listed with its
    position as [index]; [total_chunks] is their number;
    [parsing_info] holds one metadata entry per file, the sum of the
    parse times, and the requested parser name as [parser_used] (also
    when the mock fallback parsed the files). *)
Theorem preview_success_shape (env : Env) (fd : FormData) (st : Preview.ChunkStats)
        (Hok : Preview.preview env fd = Preview.PreviewOk st) :
  let p := read_params fd in
  let cfg := make_splitter p in
  Forall (fun f => PerFile.file_ok env p cfg f = true) (files fd)
  /\ map Preview.pv_content (Preview.all_chunks st)
     = concat (map (PerFile.file_chunks env p cfg) (files fd))
  /\ (forall k c, nth_error (Preview.all_chunks st) k = Some c -> Preview.index c = k)
  /\ Preview.st_total_chunks st = length (concat (map (PerFile.file_chunks env p cfg) (files fd)))
  /\ Preview.total_parse_time (Preview.parsing_info st)
     = list_sum (map (PerFile.file_parse_time env p) (files fd))
  /\ length (Preview.files_metadata (Preview.parsing_info st)) = length (files fd)
  /\ Preview.parser_used (Preview.parsing_info st) = pdfParser p.
Proof.
  intros p cfg; revert Hok; unfold Preview.preview; fold p; fold cfg.
  destruct (files fd) as [|f0 fs] eqn:Hf; [discriminate|].
  destruct (match f_metadata fd with
            | Some s => if String.eqb s "" then Ret (JObj []) else json_parse env s
            | None => Ret (JObj []) end); [|discriminate].
  destruct (new_splitter env cfg); [|discriminate].
  destruct (Preview.preview_loop env p cfg (f0 :: fs) [] 0 []) as [r|[[acc tpt] em]] eqn:E.
  { intros ->; exfalso; exact (preview_loop_inl env p cfg _ _ _ _ _ E st eq_refl). }
  pose proof (preview_loop_inr env p cfg _ _ _ _ _ E) as Hall.
  destruct (preview_loop_ok env p cfg (f0 :: fs) [] 0 [] Hall) as (em' & E' & Hl).
  rewrite E in E'; injection E' as Hacc Htpt Hem; simpl app in Hacc, Hem.
  destruct acc as [|c cs]; [discriminate|].
  intros [= <-]; cbn [Preview.chunk_stats Preview.all_chunks Preview.st_total_chunks
    Preview.parsing_info Preview.total_parse_time Preview.files_metadata Preview.parser_used].
  split; [rewrite forallb_forall in Hall; apply Forall_forall; exact Hall|].
  split; [rewrite previews_from_contents; exact Hacc|].
  split; [intros k c' Hk; apply previews_from_index in Hk; lia|].
  split; [rewrite Hacc; reflexivity|].
  split; [exact Htpt|].
  split; [subst em; exact Hl|reflexivity].
Qed.

Lemma preview_success_shape_witness :
  exists st,
    Preview.preview Scenarios.env_dev (Scenarios.form [Scenarios.bad_file] (Some "{}"))
    = Preview.PreviewOk st
    /\ map Preview.pv_content (Preview.all_chunks st)
       = concat (map (PerFile.file_chunks Scenarios.env_dev
                        (read_params (Scenarios.form [Scenarios.bad_file] (Some "{}")))
                        (make_splitter (read_params (Scenarios.form [Scenarios.bad_file]
                                                       (Some "{}")))))
                     [Scenarios.bad_file])
    /\ Preview.parser_used (Preview.parsing_info st) = "pdf-parse"
    /\ length (Preview.files_metadata (Preview.parsing_info st)) = 1.
Proof.
  eexists; split; [vm_compute; reflexivity|].
  destruct (preview_success_shape Scenarios.env_dev
              (Scenarios.form [Scenarios.bad_file] (Some "{}")) _ eq_refl)
    as (_ & Hc & _ & _ & _ & Hm & Hp).
  split; [exact Hc|split; [exact Hp|exact Hm]].
Defined.

(** X8. When a preview request has files, its metadata (if given) parses,
    the splitter accepts its options and every file is processed without
    error, the response is the 400 ['No chunks could be generated from
    the files'] exactly when no file yields a chunk; otherwise it is the
    statistics of the concatenated chunks, with the summed parse time. *)
Theorem preview_files_ok (env : Env) (fd : FormData)
        (Hfiles : files fd <> [])
        (Hmeta : forall s, f_metadata fd = Some s -> s <> "" ->
                           exists m, json_parse env s = Ret m)
        (Hsplit : new_splitter env (make_splitter (read_params fd)) = Ret tt)
        (Hok : Forall (fun f => PerFile.file_ok env (read_params fd)
                                  (make_splitter (read_params fd)) f = true) (files fd)) :
  match concat (map (PerFile.file_chunks env (read_params fd)
                       (make_splitter (read_params fd))) (files fd)) with
  | [] => Preview.preview env fd
          = Preview.PreviewError 400 "No chunks could be generated from the files"
  | c :: cs =>
      exists em,
        Preview.preview env fd
        = Preview.PreviewOk
            (Preview.chunk_stats c cs
               (list_sum (map (PerFile.file_parse_time env (read_params fd)) (files fd)))
               (pdfParser (read_params fd)) em)
  end.
Proof.
  assert (Hall : forallb (PerFile.file_ok env (read_params fd)
                            (make_splitter (read_params fd))) (files fd) = true).
  { apply forallb_forall, Forall_forall, Hok. }
  destruct (preview_loop_ok env (read_params fd) (make_splitter (read_params fd))
              (files fd) [] 0 [] Hall) as (em & E & _).
  unfold Preview.preview.
  assert (Hm : exists m, match f_metadata fd with
                         | Some s => if String.eqb s "" then Ret (JObj []) else json_parse env s
                         | None => Ret (JObj []) end = Ret m).
  { destruct (f_metadata fd) as [s|]; [|eauto].
    destruct (String.eqb_spec s ""); [eauto|].
    apply (Hmeta s eq_refl n). }
  destruct Hm as [m ->].
  rewrite Hsplit, E; simpl app; simpl Nat.add.
  destruct (files fd) as [|f0 fs]; [contradiction|].
  destruct (concat _) as [|c cs]; [reflexivity|].
  exists em; reflexivity.
Qed.

Lemma preview_files_ok_witness :
  exists em,
    Preview.preview Scenarios.env_ok (Scenarios.form [Scenarios.good_file] (Some "{}"))
    = Preview.PreviewOk (Preview.chunk_stats "Quarterly results" [] 5 "pdf-parse" em).
Proof.
  refine (preview_files_ok Scenarios.env_ok
            (Scenarios.form [Scenarios.good_file] (Some "{}")) _ _ _ _).
  - discriminate.
  - intros s Hs _; injection Hs as <-; exists (JObj []); reflexivity.
  - reflexivity.
  - repeat constructor.
Defined.

(* ------------------------------------------------------------------ *)
(** ** The upload route: rows, service calls and order *)

(** One chunk, with the stored record written out. *)
Lemma chunk_step_record (env : Env) (metadata : jsval) (f : File) (pr : ParseResult)
      (n i : nat) (c : string) (s : Upload.UState) :
  Spec.nullish metadata = false ->
  exists ctx (gp : string -> jsval),
    (forall k, get_prop metadata k = Ret (gp k))
    /\ Upload.try_catch (Upload.chunk_body env metadata f pr n i c)
                        (fun _ => Upload.ret tt) s
       = match generate_embedding env (Upload.embed_calls s) ctx with
         | Throw _ => (Ret tt, Spec.bump_embed s)
         | Ret v =>
             let r := Upload.chunk_record metadata f pr n i c v (gp "title") (gp "author")
                        (gp "doc_type") (gp "genre") (gp "topic") (gp "difficulty")
                        (gp "tags") (gp "description") in
             match db_insert env (Upload.insert_calls s) r with
             | InsOk => (Ret tt, Spec.store s r)
             | _ => (Ret tt, Spec.bump_insert s)
             end
         end.
Proof.
  intros Hm.
  set (gp k := match get_prop metadata k with Ret x => x | Throw _ => JUndef end).
  assert (Hgp : forall k, get_prop metadata k = Ret (gp k))
    by (intros k; now apply get_prop_total).
  exists (Upload.context_text (gp "title") (gp "author") (gp "topic") f c), gp.
  split; [exact Hgp|].
  unfold Upload.try_catch, Upload.chunk_body, Upload.bind, Upload.lift.
  rewrite !Hgp.
  unfold Upload.generateEmbedding.
  destruct (generate_embedding env (Upload.embed_calls s) _) as [v|e]; [|reflexivity].
  unfold Upload.insert.
  cbn [Upload.insert_calls Upload.db Upload.embed_calls Upload.totalChunks
       Upload.documentsCount].
  destruct (db_insert env (Upload.insert_calls s) _); reflexivity.
Qed.

Lemma loop_row_shift metadata f pr n i c cs r :
  PerFile.loop_row metadata f pr n (S i) cs r -> PerFile.loop_row metadata f pr n i (c :: cs) r.
Proof.
  intros (j & c' & v & gp & Hj & Hg & ->).
  exists (S j), c', v, gp; split; [exact Hj|split; [exact Hg|]].
  f_equal; lia.
Qed.

Lemma chunk_loop_full (env : Env) (metadata : jsval) (f : File) (pr : ParseResult)
      (n : nat) (cs : list string) (i : nat) (s : Upload.UState) :
  exists s' new,
    Upload.chunk_loop env metadata f pr n i cs s = (Ret tt, s')
    /\ Upload.db s' = app (Upload.db s) new
    /\ Upload.totalChunks s' = Upload.totalChunks s + length new
    /\ Upload.documentsCount s' = Upload.documentsCount s
    /\ Upload.embed_calls s'
       = Upload.embed_calls s + (if Spec.nullish metadata then 0 else length cs)
    /\ Upload.insert_calls s <= Upload.insert_calls s'
    /\ Upload.insert_calls s' - Upload.insert_calls s
       <= Upload.embed_calls s' - Upload.embed_calls s
    /\ length new <= Upload.insert_calls s' - Upload.insert_calls s
    /\ Forall (PerFile.loop_row metadata f pr n i cs) new
    /\ Forall (fun r => i < chunk_id r <= i + length cs) new
    /\ Sorted lt (map chunk_id new).
Proof.
  revert i s; induction cs as [|c cs IH]; intros i s.
  - exists s, []; simpl; rewrite app_nil_r; destruct (Spec.nullish metadata);
      repeat split; auto; lia.
  - simpl; unfold Upload.bind.
    assert (Step : exists s1 new1,
               Upload.try_catch (Upload.chunk_body env metadata f pr n i c)
                 (fun _ => Upload.ret tt) s = (Ret tt, s1)
               /\ Upload.db s1 = app (Upload.db s) new1
               /\ Upload.totalChunks s1 = Upload.totalChunks s + length new1
               /\ Upload.documentsCount s1 = Upload.documentsCount s
               /\ Upload.embed_calls s1
                  = Upload.embed_calls s + (if Spec.nullish metadata then 0 else 1)
               /\ Upload.insert_calls s <= Upload.insert_calls s1
               /\ Upload.insert_calls s1 - Upload.insert_calls s
                  <= Upload.embed_calls s1 - Upload.embed_calls s
               /\ length new1 <= Upload.insert_calls s1 - Upload.insert_calls s
               /\ Forall (PerFile.loop_row metadata f pr n i (c :: cs)) new1
               /\ Forall (fun r => chunk_id r = S i) new1).
    { destruct (Spec.nullish metadata) eqn:Hm.
      - exists s, []; rewrite chunk_step_nullish by exact Hm.
        rewrite app_nil_r; repeat split; auto; simpl; lia.
      - destruct (chunk_step_record env metadata f pr n i c s Hm) as (ctx & gp & Hg & ->).
        destruct (generate_embedding env (Upload.embed_calls s) ctx) as [v|e].
        + cbv zeta.
          destruct (db_insert env (Upload.insert_calls s) _).
          * match goal with |- context [Spec.store s ?r] => exists (Spec.store s r), [r] end.
            ust; repeat split; auto; try lia.
            -- constructor; [|constructor].
               exists 0, c, v, gp; repeat split; auto; f_equal; lia.
            -- constructor; [simpl; lia|constructor].
          * exists (Spec.bump_insert s), []; ust; rewrite app_nil_r;
              repeat split; auto; lia.
          * exists (Spec.bump_insert s), []; ust; rewrite app_nil_r;
              repeat split; auto; lia.
        + exists (Spec.bump_embed s), []; ust; rewrite app_nil_r;
            repeat split; auto; lia. }
    destruct Step as (s1 & new1 & -> & Hdb1 & Ht1 & Hd1 & He1 & Hi1 & Hie1 & Hn1 & Hr1 & Hc1).
    destruct (IH (S i) s1)
      as (s2 & new2 & E & Hdb2 & Ht2 & Hd2 & He2 & Hi2 & Hie2 & Hn2 & Hr2 & Hb2 & Hs2).
    exists s2, (app new1 new2); rewrite E.
    split; [reflexivity|].
    split; [rewrite Hdb2, Hdb1, app_assoc; reflexivity|].
    split; [rewrite Ht2, Ht1, length_app; lia|].
    split; [rewrite Hd2, Hd1; reflexivity|].
    split; [rewrite He2, He1; destruct (Spec.nullish metadata); simpl; lia|].
    split; [lia|].
    split; [destruct (Spec.nullish metadata); lia|].
    split; [rewrite length_app; lia|].
    split.
    { apply Forall_app; split; [exact Hr1|].
      eapply Forall_impl; [|exact Hr2]; intros r; apply loop_row_shift. }
    split.
    { apply Forall_app; split.
      - eapply Forall_impl; [|exact Hc1]; simpl; intros r ->; lia.
      - eapply Forall_impl; [|exact Hb2]; simpl; intros r Hr; lia. }
    rewrite map_app.
    destruct new1 as [|r1 [|r1' new1]]; [exact Hs2| |simpl in Hn1; destruct (Spec.nullish metadata); lia].
    inversion Hc1 as [|? ? Hr1id _]; subst; simpl.
    constructor; [exact Hs2|].
    destruct new2 as [|r2 new2]; simpl; constructor.
    inversion Hb2; subst; lia.
Qed.

Lemma built_row_incl env p metadata fs fs' r :
  incl fs fs' -> PerFile.built_row env p metadata fs r -> PerFile.built_row env p metadata fs' r.
Proof.
  intros Hi (f & pr & chunks & i & c & v & gp & Hf & H).
  exists f, pr, chunks, i, c, v, gp; split; [apply Hi; exact Hf|exact H].
Qed.

Lemma file_step_full (env : Env) (p : Params) (metadata : jsval) (f : File)
      (s : Upload.UState) :
  exists s' new,
    Upload.try_catch (Upload.file_body env p (make_splitter p) metadata f)
                     (fun _ => Upload.ret tt) s = (Ret tt, s')
    /\ Upload.db s' = app (Upload.db s) new
    /\ Upload.totalChunks s' = Upload.totalChunks s + length new
    /\ Upload.documentsCount s'
       = Upload.documentsCount s + (if Spec.file_completes env p f then 1 else 0)
    /\ Upload.embed_calls s'
       = Upload.embed_calls s
         + (if Spec.nullish metadata then 0
            else length (PerFile.file_chunks env p (make_splitter p) f))
    /\ Upload.insert_calls s <= Upload.insert_calls s'
    /\ Upload.insert_calls s' - Upload.insert_calls s
       <= Upload.embed_calls s' - Upload.embed_calls s
    /\ length new <= Upload.insert_calls s' - Upload.insert_calls s
    /\ Forall (PerFile.built_row env p metadata [f]) new
    /\ Sorted lt (map chunk_id new)
    /\ Forall (fun r => source r = file_name f) new.
Proof.
  unfold Upload.try_catch, Upload.file_body, Upload.bind, Upload.lift,
    Spec.file_completes, PerFile.file_chunks.
  destruct (parsePDF env (file_bytes f) (pdfParser p) (development env)) as [pr|e] eqn:Hp.
  2:{ exists s, []; rewrite app_nil_r; destruct (Spec.nullish metadata);
      repeat split; auto; simpl; lia. }
  destruct (blank (text pr)) eqn:Hb.
  { exists s, []; unfold Upload.ret; rewrite app_nil_r; destruct (Spec.nullish metadata);
    repeat split; auto; simpl; lia. }
  destruct (split_text env (make_splitter p) (text pr)) as [[|c cs]|e] eqn:Hs.
  - exists s, []; unfold Upload.ret; rewrite app_nil_r; destruct (Spec.nullish metadata);
      repeat split; auto; simpl; lia.
  - destruct (chunk_loop_full env metadata f pr (length (c :: cs)) (c :: cs) 0 s)
      as (s1 & new & E & Hdb & Ht & Hd & He & Hi & Hie & Hn & Hr & _ & Hso).
    rewrite E; unfold Upload.incr_documentsCount.
    exists (Upload.mkUState (Upload.db s1) (Upload.embed_calls s1) (Upload.insert_calls s1)
                            (Upload.totalChunks s1) (S (Upload.documentsCount s1))), new.
    cbn [Upload.db Upload.embed_calls Upload.insert_calls Upload.totalChunks
         Upload.documentsCount].
    split; [reflexivity|].
    split; [exact Hdb|]. split; [exact Ht|]. split; [rewrite Hd; lia|].
    split; [exact He|]. split; [exact Hi|]. split; [exact Hie|]. split; [exact Hn|].
    split; [|split; [exact Hso|]].
    + eapply Forall_impl; [|exact Hr]; intros r (j & c' & v & gp & Hj & Hg & Er).
      exists f, pr, (c :: cs), j, c', v, gp.
      split; [left; reflexivity|].
      split; [exact Hp|split; [exact Hb|split; [exact Hs|split; [exact Hj|split; [exact Hg|]]]]].
      exact Er.
    + eapply Forall_impl; [|exact Hr]; intros r (j & c' & v & gp & _ & _ & ->).
      reflexivity.
  - exists s, []; rewrite app_nil_r; destruct (Spec.nullish metadata);
      repeat split; auto; simpl; lia.
Qed.

Lemma file_loop_full (env : Env) (p : Params) (metadata : jsval) (fs : list File)
      (s : Upload.UState) :
  exists s' new ls,
    Upload.file_loop env p (make_splitter p) metadata fs s = (Ret tt, s')
    /\ Upload.db s' = app (Upload.db s) new
    /\ Upload.totalChunks s' = Upload.totalChunks s + length new
    /\ Upload.documentsCount s'
       = Upload.documentsCount s + length (filter (Spec.file_completes env p) fs)
    /\ Upload.embed_calls s'
       = Upload.embed_calls s + (if Spec.nullish metadata then 0 else PerFile.chunk_total env p fs)
    /\ Upload.insert_calls s <= Upload.insert_calls s'
    /\ Upload.insert_calls s' - Upload.insert_calls s
       <= Upload.embed_calls s' - Upload.embed_calls s
    /\ length new <= Upload.insert_calls s' - Upload.insert_calls s
    /\ Forall (PerFile.built_row env p metadata fs) new
    /\ new = concat ls
    /\ Forall2 PerFile.file_rows_ordered fs ls.
Proof.
  revert s; induction fs as [|f fs IH]; intros s.
  - exists s, [], []; simpl; rewrite app_nil_r; destruct (Spec.nullish metadata);
      repeat split; auto; lia.
  - simpl; unfold Upload.bind.
    destruct (file_step_full env p metadata f s)
      as (s1 & new1 & -> & Hdb1 & Ht1 & Hd1 & He1 & Hi1 & Hie1 & Hn1 & Hr1 & Hs1 & Hso1).
    destruct (IH s1)
      as (s2 & new2 & ls & E & Hdb2 & Ht2 & Hd2 & He2 & Hi2 & Hie2 & Hn2 & Hr2 & Hc2 & Hf2).
    exists s2, (app new1 new2), (new1 :: ls); rewrite E.
    split; [reflexivity|].
    split; [rewrite Hdb2, Hdb1, app_assoc; reflexivity|].
    split; [rewrite Ht2, Ht1, length_app; lia|].
    split; [rewrite Hd2, Hd1; destruct (Spec.file_completes env p f); simpl; lia|].
    split; [rewrite He2, He1; unfold PerFile.chunk_total; simpl;
            destruct (Spec.nullish metadata); lia|].
    split; [lia|].
    split; [destruct (Spec.nullish metadata); lia|].
    split; [rewrite length_app; lia|].
    split.
    { apply Forall_app; split.
      - eapply Forall_impl; [|exact Hr1]; intros r; apply built_row_incl.
        intros g [<-|[]]; left; reflexivity.
      - eapply Forall_impl; [|exact Hr2]; intros r; apply built_row_incl.
        intros g Hg; right; exact Hg. }
    split; [rewrite Hc2; reflexivity|].
    constructor; [split; assumption|exact Hf2].
Qed.

Lemma upload_full (env : Env) (fd : FormData) (s : Upload.UState)
      (ms : string) (m : jsval)
      (Hfiles : files fd <> []) (Hmeta : f_metadata fd = Some ms) (Hne : ms <> "")
      (Hjson : json_parse env ms = Ret m)
      (Hsplit : new_splitter env (make_splitter (read_params fd)) = Ret tt) :
  exists s' new ls,
    Upload.upload env fd s
    = (Ret (Upload.UploadOk
              (length (filter (Spec.file_completes env (read_params fd)) (files fd)))
              (length new)
              ("Successfully processed "
               ++ nat_to_string (length (filter (Spec.file_completes env (read_params fd))
                                                (files fd)))
               ++ " documents with " ++ nat_to_string (length new) ++ " chunks")), s')
    /\ Upload.db s' = app (Upload.db s) new
    /\ Upload.embed_calls s'
       = Upload.embed_calls s
         + (if Spec.nullish m then 0 else PerFile.chunk_total env (read_params fd) (files fd))
    /\ Upload.insert_calls s <= Upload.insert_calls s'
    /\ Upload.insert_calls s' - Upload.insert_calls s
       <= Upload.embed_calls s' - Upload.embed_calls s
    /\ length new <= Upload.insert_calls s' - Upload.insert_calls s
    /\ Forall (PerFile.built_row env (read_params fd) m (files fd)) new
    /\ new = concat ls
    /\ Forall2 PerFile.file_rows_ordered (files fd) ls.
Proof.
  unfold Upload.upload, Upload.upload_body, Upload.try_catch, Upload.bind,
    Upload.lift, Upload.ret.
  destruct (files fd) as [|f0 fs] eqn:Hf; [congruence|].
  rewrite Hmeta.
  destruct (String.eqb ms "") eqn:Hms; [apply String.eqb_eq in Hms; congruence|].
  rewrite Hjson; unfold Upload.reset_counters; rewrite Hsplit.
  destruct (file_loop_full env (read_params fd) m (f0 :: fs)
              (Upload.mkUState (Upload.db s) (Upload.embed_calls s)
                               (Upload.insert_calls s) 0 0))
    as (s1 & new & ls & E & Hdb & Ht & Hd & He & Hi & Hie & Hn & Hr & Hc & Ho).
  rewrite E; unfold Upload.get_state.
  cbn [Upload.db Upload.embed_calls Upload.insert_calls Upload.totalChunks
       Upload.documentsCount] in *.
  rewrite Ht, Hd.
  exists s1, new, ls; repeat split; assumption.
Qed.

Lemma lookup_obj_assign_notin (fs kvs : list (string * jsval)) (k : string) :
  ~ In k (map fst kvs) -> lookup (obj_assign fs kvs) k = lookup fs k.
Proof.
  unfold obj_assign; revert fs; induction kvs as [|[k' v'] kvs IH]; intros fs Hk;
    simpl; [reflexivity|].
  rewrite IH by (intros H; apply Hk; right; exact H).
  rewrite lookup_obj_set.
  destruct (String.eqb k' k) eqn:E; [|reflexivity].
  apply String.eqb_eq in E; subst; exfalso; apply Hk; left; reflexivity.
Qed.

(** X9. The upload route answers before reading any file, without a
    service call and with the state untouched: 400 "No files provided"
    without files, 400 "Metadata is required" for an absent or empty
    [metadata] field, and 500 "Internal server error" for a [metadata]
    string [JSON.parse] rejects; on that last input the preview route
    answers 500 with the parser's message appended. *)
Theorem upload_early_rejections (env : Env) (fd : FormData) (s : Upload.UState) :
  (files fd = [] ->
   Upload.upload env fd s = (Ret (Upload.UploadError 400 "No files provided"), s))
  /\ (files fd <> [] -> (f_metadata fd = None \/ f_metadata fd = Some "") ->
      Upload.upload env fd s = (Ret (Upload.UploadError 400 "Metadata is required"), s))
  /\ (forall ms e, files fd <> [] -> f_metadata fd = Some ms -> ms <> "" ->
      json_parse env ms = Throw e ->
      Upload.upload env fd s = (Ret (Upload.UploadError 500 "Internal server error"), s)
      /\ Preview.preview env fd
         = Preview.PreviewError 500 ("Internal server error: " ++ error_message e)).
Proof.
  unfold Upload.upload, Upload.upload_body, Upload.try_catch, Upload.bind,
    Upload.lift, Upload.ret, Preview.preview.
  split; [|split].
  - intros ->; reflexivity.
  - intros Hf Hm; destruct (files fd) as [|f fs]; [congruence|].
    destruct Hm as [-> | ->]; reflexivity.
  - intros ms e Hf Hm Hne Hj; destruct (files fd) as [|f fs]; [congruence|].
    rewrite Hm; destruct (String.eqb ms "") eqn:E;
      [apply String.eqb_eq in E; congruence|].
    rewrite Hj; split; reflexivity.
Qed.

Lemma upload_early_rejections_witness :
  Upload.upload Scenarios.env_ok (Scenarios.form [] (Some "{}")) Scenarios.empty_state
  = (Ret (Upload.UploadError 400 "No files provided"), Scenarios.empty_state)
  /\ Upload.upload Scenarios.env_ok (Scenarios.form [Scenarios.good_file] (Some ""))
       Scenarios.empty_state
     = (Ret (Upload.UploadError 400 "Metadata is required"), Scenarios.empty_state).
Proof.
  destruct (upload_early_rejections Scenarios.env_ok (Scenarios.form [] (Some "{}"))
              Scenarios.empty_state) as [H1 _].
  destruct (upload_early_rejections Scenarios.env_ok
              (Scenarios.form [Scenarios.good_file] (Some "")) Scenarios.empty_state)
    as [_ [H2 _]].
  split; [apply H1; reflexivity|apply H2; [discriminate|right; reflexivity]].
Defined.

(** X10. When the upload reaches its file loop, it calls the embedding
    service once per chunk of every file that parsed and split (not at
    all when the metadata parses to [null]), makes no more insert calls
    than embedding calls, and appends at most one row per insert call. *)
Theorem upload_service_calls (env : Env) (fd : FormData) (s : Upload.UState)
        (ms : string) (m : jsval)
        (Hfiles : files fd <> []) (Hmeta : f_metadata fd = Some ms) (Hne : ms <> "")
        (Hjson : json_parse env ms = Ret m)
        (Hsplit : new_splitter env (make_splitter (read_params fd)) = Ret tt) :
  let s' := snd (Upload.upload env fd s) in
  Upload.embed_calls s'
  = Upload.embed_calls s
    + (if Spec.nullish m then 0 else PerFile.chunk_total env (read_params fd) (files fd))
  /\ Upload.insert_calls s <= Upload.insert_calls s'
  /\ Upload.insert_calls s' - Upload.insert_calls s
     <= Upload.embed_calls s' - Upload.embed_calls s
  /\ exists new, Upload.db s' = app (Upload.db s) new
                 /\ length new <= Upload.insert_calls s' - Upload.insert_calls s.
Proof.
  destruct (upload_full env fd s ms m Hfiles Hmeta Hne Hjson Hsplit)
    as (s' & new & ls & E & Hdb & He & Hi & Hie & Hn & _).
  cbv zeta; rewrite E; cbn [snd].
  split; [exact He|split; [exact Hi|split; [exact Hie|]]].
  exists new; split; [exact Hdb|exact Hn].
Qed.

Lemma upload_service_calls_witness :
  let s' := snd (Upload.upload Scenarios.env_ten
                   (Scenarios.form [Scenarios.good_file] (Some "{}"))
                   Scenarios.empty_state) in
  Upload.embed_calls s' = 0 + 10
  /\ 0 <= Upload.insert_calls s'
  /\ Upload.insert_calls s' - 0 <= Upload.embed_calls s' - 0
  /\ exists new, Upload.db s' = app [] new /\ length new <= Upload.insert_calls s' - 0.
Proof.
  exact (upload_service_calls Scenarios.env_ten
           (Scenarios.form [Scenarios.good_file] (Some "{}")) Scenarios.empty_state
           "{}" (JObj [("title", JStr "Q3")])
           ltac:(discriminate) eq_refl ltac:(discriminate) eq_refl eq_refl).
Defined.

(** X11. A [metadata] string that parses to [null] makes every chunk fail
    before its embedding: the upload stores no row and calls neither
    service, yet answers success with [chunksCount = 0] and counts every
    file that parsed and split as processed. *)
Theorem upload_null_metadata (env : Env) (fd : FormData) (s : Upload.UState)
        (ms : string) (m : jsval)
        (Hfiles : files fd <> []) (Hmeta : f_metadata fd = Some ms) (Hne : ms <> "")
        (Hjson : json_parse env ms = Ret m) (Hnull : Spec.nullish m = true)
        (Hsplit : new_splitter env (make_splitter (read_params fd)) = Ret tt) :
  let d := length (filter (Spec.file_completes env (read_params fd)) (files fd)) in
  exists s',
    Upload.upload env fd s
    = (Ret (Upload.UploadOk d 0 ("Successfully processed " ++ nat_to_string d
                                 ++ " documents with 0 chunks")), s')
    /\ Upload.db s' = Upload.db s
    /\ Upload.embed_calls s' = Upload.embed_calls s
    /\ Upload.insert_calls s' = Upload.insert_calls s.
Proof.
  destruct (upload_full env fd s ms m Hfiles Hmeta Hne Hjson Hsplit)
    as (s' & new & ls & E & Hdb & He & Hi & Hie & Hn & _).
  rewrite Hnull in He.
  assert (Hnew : new = []) by (destruct new; [reflexivity|simpl in Hn; lia]).
  subst new; cbv zeta; exists s'; rewrite E.
  split; [reflexivity|].
  split; [rewrite Hdb, app_nil_r; reflexivity|].
  split; lia.
Qed.

Lemma upload_null_metadata_witness :
  exists s',
    Upload.upload Scenarios.env_null (Scenarios.form [Scenarios.good_file] (Some "null"))
      Scenarios.empty_state
    = (Ret (Upload.UploadOk 1 0 "Successfully processed 1 documents with 0 chunks"), s')
    /\ Upload.db s' = [] /\ Upload.embed_calls s' = 0 /\ Upload.insert_calls s' = 0.
Proof.
  exact (upload_null_metadata Scenarios.env_null
           (Scenarios.form [Scenarios.good_file] (Some "null")) Scenarios.empty_state
           "null" JNull ltac:(discriminate) eq_refl ltac:(discriminate) eq_refl eq_refl
           eq_refl).
Defined.

(** X12. Every row the upload stores is built from one chunk of one
    file of the request: its [metadata] copies the own properties of the
    parsed metadata, except the seven keys the route writes after the
    spread, which the metadata cannot override: [chunk_index] is the
    chunk's position, [total_chunks] the file's number of chunks,
    [filename] and [file_size] come from the file, and [parser_used],
    [parse_time] and [pdf_metadata] from its parse. Its [source] is the
    file name and its [source_type] is "pdf_upload". *)
Theorem upload_row_metadata (env : Env) (fd : FormData) (s : Upload.UState)
        (ms : string) (m : jsval)
        (Hfiles : files fd <> []) (Hmeta : f_metadata fd = Some ms) (Hne : ms <> "")
        (Hjson : json_parse env ms = Ret m)
        (Hsplit : new_splitter env (make_splitter (read_params fd)) = Ret tt) :
  exists new,
    Upload.db (snd (Upload.upload env fd s)) = app (Upload.db s) new
    /\ Forall (fun r =>
         exists f pr chunks i c,
           In f (files fd)
           /\ parsePDF env (file_bytes f) (pdfParser (read_params fd)) (development env) = Ret pr
           /\ split_text env (make_splitter (read_params fd)) (text pr) = Ret chunks
           /\ nth_error chunks i = Some c
           /\ content r = c
           /\ source r = file_name f
           /\ source_type r = "pdf_upload"
           /\ lookup (rec_metadata r) "chunk_index" = Some (JNum (Z.of_nat i))
           /\ lookup (rec_metadata r) "total_chunks" = Some (JNum (Z.of_nat (length chunks)))
           /\ lookup (rec_metadata r) "filename" = Some (JStr (file_name f))
           /\ lookup (rec_metadata r) "file_size" = Some (JNum (Z.of_nat (file_size f)))
           /\ lookup (rec_metadata r) "parser_used" = Some (JStr (parserUsed pr))
           /\ lookup (rec_metadata r) "parse_time" = Some (JNum (Z.of_nat (parseTime pr)))
           /\ lookup (rec_metadata r) "pdf_metadata" = Some (pr_metadata pr)
           /\ forall k, ~ In k PerFile.route_keys ->
                        lookup (rec_metadata r) k = lookup (spread m) k) new.
Proof.
  destruct (upload_full env fd s ms m Hfiles Hmeta Hne Hjson Hsplit)
    as (s' & new & ls & E & Hdb & _ & _ & _ & _ & Hr & _).
  exists new; rewrite E; split; [exact Hdb|].
  eapply Forall_impl; [|exact Hr].
  intros r (f & pr & chunks & i & c & v & gp & Hf & Hp & _ & Hs & Hc & _ & ->).
  exists f, pr, chunks, i, c.
  split; [exact Hf|split; [exact Hp|split; [exact Hs|split; [exact Hc|]]]].
  cbn [content source source_type rec_metadata Upload.chunk_record].
  unfold spread_with, obj_assign; cbn [fold_left fst snd].
  rewrite !lookup_obj_set; cbn.
  do 10 (split; [reflexivity|]).
  intros k Hk.
  rewrite <- (lookup_obj_assign_notin (spread m)
               [("chunk_index", JNum (Z.of_nat i));
                ("total_chunks", JNum (Z.of_nat (length chunks)));
                ("filename", JStr (file_name f));
                ("file_size", JNum (Z.of_nat (file_size f)));
                ("parser_used", JStr (parserUsed pr));
                ("parse_time", JNum (Z.of_nat (parseTime pr)));
                ("pdf_metadata", pr_metadata pr)] k Hk).
  reflexivity.
Qed.

Lemma upload_row_metadata_witness :
  exists new,
    Upload.db (snd (Upload.upload Scenarios.env_ten
                      (Scenarios.form [Scenarios.good_file] (Some "{}"))
                      Scenarios.empty_state)) = app [] new
    /\ Forall (fun r =>
         exists f pr chunks i c,
           In f ([Scenarios.good_file])
           /\ parsePDF Scenarios.env_ten (file_bytes f) "pdf-parse" false = Ret pr
           /\ split_text Scenarios.env_ten (make_splitter (read_params (Scenarios.form [Scenarios.good_file] (Some "{}")))) (text pr) = Ret chunks
           /\ nth_error chunks i = Some c
           /\ content r = c
           /\ source r = file_name f
           /\ source_type r = "pdf_upload"
           /\ lookup (rec_metadata r) "chunk_index" = Some (JNum (Z.of_nat i))
           /\ lookup (rec_metadata r) "total_chunks" = Some (JNum (Z.of_nat (length chunks)))
           /\ lookup (rec_metadata r) "filename" = Some (JStr (file_name f))
           /\ lookup (rec_metadata r) "file_size" = Some (JNum (Z.of_nat (file_size f)))
           /\ lookup (rec_metadata r) "parser_used" = Some (JStr (parserUsed pr))
           /\ lookup (rec_metadata r) "parse_time" = Some (JNum (Z.of_nat (parseTime pr)))
           /\ lookup (rec_metadata r) "pdf_metadata" = Some (pr_metadata pr)
           /\ forall k, ~ In k PerFile.route_keys ->
                        lookup (rec_metadata r) k = lookup (spread (JObj [("title", JStr "Q3")])) k) new.
Proof.
  exact (upload_row_metadata Scenarios.env_ten
           (Scenarios.form [Scenarios.good_file] (Some "{}")) Scenarios.empty_state
           "{}" (JObj [("title", JStr "Q3")])
           ltac:(discriminate) eq_refl ltac:(discriminate) eq_refl eq_refl).
Defined.

(** X13. The upload appends its rows file by file, in the order of the
    request's files: the new rows split into one group per file, the
    group of a file carries that file's name as [source], and its
    [chunk_id]s strictly increase. *)
Theorem upload_row_order (env : Env) (fd : FormData) (s : Upload.UState)
        (ms : string) (m : jsval)
        (Hfiles : files fd <> []) (Hmeta : f_metadata fd = Some ms) (Hne : ms <> "")
        (Hjson : json_parse env ms = Ret m)
        (Hsplit : new_splitter env (make_splitter (read_params fd)) = Ret tt) :
  exists groups,
    Upload.db (snd (Upload.upload env fd s)) = app (Upload.db s) (concat groups)
    /\ Forall2 (fun f g => Sorted lt (map chunk_id g)
                           /\ Forall (fun r => source r = file_name f) g)
               (files fd) groups.
Proof.
  destruct (upload_full env fd s ms m Hfiles Hmeta Hne Hjson Hsplit)
    as (s' & new & ls & E & Hdb & _ & _ & _ & _ & _ & Hc & Ho).
  exists ls; rewrite E; cbn [snd]; rewrite Hdb, Hc; split; [reflexivity|exact Ho].
Qed.

Lemma upload_row_order_witness :
  exists groups,
    Upload.db (snd (Upload.upload Scenarios.env_ten
                      (Scenarios.form [Scenarios.good_file; Scenarios.bad_file] (Some "{}"))
                      Scenarios.empty_state)) = app [] (concat groups)
    /\ Forall2 (fun f g => Sorted lt (map chunk_id g)
                           /\ Forall (fun r => source r = file_name f) g)
               [Scenarios.good_file; Scenarios.bad_file] groups.
Proof.
  exact (upload_row_order Scenarios.env_ten
           (Scenarios.form [Scenarios.good_file; Scenarios.bad_file] (Some "{}"))
           Scenarios.empty_state "{}" (JObj [("title", JStr "Q3")])
           ltac:(discriminate) eq_refl ltac:(discriminate) eq_refl eq_refl).
Defined.

(* ------------------------------------------------------------------ *)
(** ** The feedback views and the setup block *)

Section FeedbackViewProofs.

Import Feedback FeedbackViews.

(** A row that passes the [CHECK] on [feedback_type] is counted by exactly
    one of the four [COUNT(CASE ...)] columns. *)
Lemma count_types_sum (rows : list FeedbackRow) :
  Forall (fun r => row_check r = true) rows ->
  count_type "helpful" rows + count_type "not_helpful" rows
  + count_type "partial" rows + count_type "detailed" rows = length rows.
Proof.
  unfold count_type; induction rows as [|r rows IH]; intros Hc; [reflexivity|].
  inversion Hc as [|? ? Hr Hrs]; subst.
  specialize (IH Hrs).
  unfold row_check in Hr; apply andb_prop in Hr as [Ht _].
  apply existsb_exists in Ht as (t & Hin & Ht); apply String.eqb_eq in Ht.
  simpl; rewrite Ht.
  destruct Hin as [<-|[<-|[<-|[<-|[]]]]]; cbn -[length filter]; cbn [length]; lia.
Qed.

Lemma Forall_filter_keep {A} (P : A -> Prop) (f : A -> bool) (l : list A) :
  Forall P l -> Forall P (filter f l).
Proof.
  intros H; apply Forall_forall; intros x Hx.
  apply filter_In in Hx as [Hx _]; rewrite Forall_forall in H; auto.
Qed.

Lemma ratings_length (rows : list FeedbackRow) :
  length (ratings rows)
  = length (filter (fun r => match fb_rating r with Some _ => true | None => false end) rows).
Proof.
  induction rows as [|r rows IH]; [reflexivity|].
  simpl; destruct (fb_rating r); simpl; rewrite ?IH; reflexivity.
Qed.

Lemma ratings_bounds (rows : list FeedbackRow) :
  Forall (fun r => row_check r = true) rows ->
  Forall (fun k => (1 <= k <= 5)%Z) (ratings rows).
Proof.
  induction rows as [|r rows IH]; intros Hc; [constructor|].
  inversion Hc as [|? ? Hr Hrs]; subst; simpl.
  unfold row_check in Hr; apply andb_prop in Hr as [_ Hk].
  destruct (fb_rating r) as [k|]; simpl; [|exact (IH Hrs)].
  apply andb_prop in Hk as [H1 H5]; apply Z.leb_le in H1, H5.
  constructor; [lia|exact (IH Hrs)].
Qed.

Lemma fold_add_bounds (ks : list Z) (a : Z) :
  Forall (fun k => (1 <= k <= 5)%Z) ks ->
  (a + Z.of_nat (length ks) <= fold_left Z.add ks a <= a + 5 * Z.of_nat (length ks))%Z.
Proof.
  revert a; induction ks as [|k ks IH]; intros a Hk; simpl; [lia|].
  inversion Hk as [|? ? H1 Hks]; subst.
  specialize (IH (a + k)%Z Hks); lia.
Qed.

(** [ORDER BY feedback_date DESC] *)
Lemma insert_desc_perm (x : option Z) (l : list (option Z)) :
  Permutation (insert_desc x l) (x :: l).
Proof.
  induction l as [|y l IH]; simpl; [reflexivity|].
  destruct (desc_le x y); [reflexivity|].
  transitivity (y :: x :: l); [constructor; exact IH|constructor].
Qed.

Lemma sort_desc_perm (l : list (option Z)) : Permutation (sort_desc l) l.
Proof.
  induction l as [|x l IH]; simpl; [reflexivity|].
  rewrite insert_desc_perm; constructor; exact IH.
Qed.

Lemma desc_le_total (a b : option Z) : desc_le a b = false -> desc_le b a = true.
Proof.
  destruct a as [x|], b as [y|]; simpl; try discriminate; try reflexivity.
  intros H; apply Z.leb_gt in H; apply Z.leb_le; lia.
Qed.

Lemma insert_desc_sorted (x : option Z) (l : list (option Z)) :
  Sorted (fun a b => desc_le a b = true) l ->
  Sorted (fun a b => desc_le a b = true) (insert_desc x l).
Proof.
  induction l as [|y l IH]; intros Hs; simpl; [repeat constructor|].
  destruct (desc_le x y) eqn:E.
  - constructor; [exact Hs|constructor; exact E].
  - apply desc_le_total in E.
    inversion Hs as [|? ? Hl Hhd]; subst.
    constructor; [exact (IH Hl)|].
    destruct l as [|z l]; simpl.
    + constructor; exact E.
    + destruct (desc_le x z); constructor; [exact E|].
      inversion Hhd; assumption.
Qed.

Lemma sort_desc_sorted (l : list (option Z)) :
  Sorted (fun a b => desc_le a b = true) (sort_desc l).
Proof.
  induction l as [|x l IH]; simpl; [constructor|].
  apply insert_desc_sorted; exact IH.
Qed.

(** Without repeated keys the order is strict: the [NULL] key first, then
    the days, latest first. *)
Lemma sorted_desc_nodup_strict (l : list (option Z)) :
  Sorted (fun a b => desc_le a b = true) l -> NoDup l ->
  Sorted (fun a b => match a, b with
                     | None, Some _ => True
                     | Some x, Some y => (x > y)%Z
                     | _, _ => False
                     end) l.
Proof.
  induction 1 as [|a l Hl IH Hhd]; intros Hn; [constructor|].
  inversion Hn as [|? ? Ha Hn']; subst.
  constructor; [exact (IH Hn')|].
  destruct l as [|b l]; constructor.
  inversion Hhd as [|? ? Hab]; subst.
  assert (a <> b) by (intros ->; apply Ha; left; reflexivity).
  destruct a as [x|], b as [y|]; simpl in Hab |- *; try discriminate; auto.
  - apply Z.leb_le in Hab; assert (x <> y) by congruence; lia.
Qed.

Lemma opt_Z_eqb_spec (a b : option Z) : opt_Z_eqb a b = true <-> a = b.
Proof.
  destruct a as [x|], b as [y|]; simpl; split; intros H; try discriminate; try reflexivity.
  - apply Z.eqb_eq in H; congruence.
  - injection H as ->; apply Z.eqb_refl.
Qed.

Section Groups.

Variable A : Type.
Variable eqb : A -> A -> bool.
Hypothesis eqb_spec : forall a b, eqb a b = true <-> a = b.

(** The groups of [GROUP BY] partition the rows. *)
Lemma sum_indicator (x : A) (ds : list A) :
  NoDup ds -> In x ds ->
  list_sum (map (fun d => if eqb x d then 1 else 0) ds) = 1.
Proof.
  induction 1 as [|d ds Hd Hn IH]; intros Hx; [destruct Hx|].
  simpl; destruct (eqb x d) eqn:E.
  - apply eqb_spec in E; subst d.
    assert (H0 : forall l, ~ In x l -> list_sum (map (fun d => if eqb x d then 1 else 0) l) = 0).
    { induction l as [|y l IHl]; intros Hy; [reflexivity|].
      simpl; destruct (eqb x y) eqn:E'.
      - apply eqb_spec in E'; subst; exfalso; apply Hy; left; reflexivity.
      - rewrite IHl; [reflexivity|intros H; apply Hy; right; exact H]. }
    rewrite H0 by exact Hd; reflexivity.
  - destruct Hx as [->|Hx].
    + rewrite (proj2 (eqb_spec x x) eq_refl) in E; discriminate.
    + simpl; apply IH; exact Hx.
Qed.

Lemma list_sum_map_add {B} (f g : B -> nat) (l : list B) :
  list_sum (map (fun x => f x + g x) l) = list_sum (map f l) + list_sum (map g l).
Proof. induction l as [|x l IH]; simpl; [reflexivity|rewrite IH; lia]. Qed.

Lemma group_sizes (key : FeedbackRow -> A) (rows : list FeedbackRow) (ds : list A) :
  NoDup ds -> (forall r, In r rows -> In (key r) ds) ->
  list_sum (map (fun d => length (filter (fun r => eqb (key r) d) rows)) ds)
  = length rows.
Proof.
  intros Hn; induction rows as [|r rows IH]; intros Hin.
  - simpl; clear Hn Hin; induction ds as [|d ds IHd]; [reflexivity|exact IHd].
  - rewrite (map_ext (fun d => length (filter (fun r => eqb (key r) d) (r :: rows)))
              (fun d => (if eqb (key r) d then 1 else 0)
                        + length (filter (fun r => eqb (key r) d) rows)))
      by (intros d; simpl; destruct (eqb (key r) d); reflexivity).
    rewrite list_sum_map_add.
    rewrite sum_indicator by (auto; apply Hin; left; reflexivity).
    rewrite IH by (intros x Hx; apply Hin; right; exact Hx); reflexivity.
Qed.

End Groups.

Lemma filter_negb_app_test (t : list FeedbackRow) (id : nat) (now : Z) :
  filter (fun r => negb (is_test_setup r)) (app t [test_row id now])
  = filter (fun r => negb (is_test_setup r)) t.
Proof. rewrite filter_app; simpl; rewrite app_nil_r; reflexivity. Qed.

Lemma Q_avg_bounds (S n : Z) :
  (0 < n)%Z -> (n <= S)%Z -> (S <= 5 * n)%Z ->
  (1 <= inject_Z S / inject_Z n <= 5)%Q.
Proof.
  intros Hn0 Hlo Hhi.
  assert (Hn : (0 < inject_Z n)%Q)
    by (change 0%Q with (inject_Z 0); rewrite <- Zlt_Qlt; exact Hn0).
  split.
  - apply Qle_shift_div_l; [exact Hn|].
    rewrite Qmult_1_l, <- Zle_Qle; exact Hlo.
  - apply Qle_shift_div_r; [exact Hn|].
    change 5%Q with (inject_Z 5); rewrite <- inject_Z_mult, <- Zle_Qle; lia.
Qed.

End FeedbackViewProofs.

(** X14. When every row satisfies the table's [CHECK] on
    [feedback_type], the four per-type counts of [feedback_stats] add up
    to [total_feedback], and those of each day of
    [daily_feedback_trends] add up to that day's [total_feedback]. *)
Theorem feedback_type_counts (date_of : Z -> Z) (rows : list Feedback.FeedbackRow)
        (Hcheck : Forall (fun r => FeedbackViews.row_check r = true) rows) :
  let st := FeedbackViews.feedback_stats rows in
  FeedbackViews.helpful_count st + FeedbackViews.not_helpful_count st
  + FeedbackViews.partial_count st + FeedbackViews.detailed_count st
  = FeedbackViews.total_feedback st
  /\ Forall (fun t => FeedbackViews.d_helpful_count t + FeedbackViews.d_not_helpful_count t
                      + FeedbackViews.d_partial_count t + FeedbackViews.d_detailed_count t
                      = FeedbackViews.d_total_feedback t)
            (FeedbackViews.daily_feedback_trends date_of rows).
Proof.
  cbv zeta; split.
  - exact (count_types_sum rows Hcheck).
  - apply Forall_forall; intros t Ht.
    unfold FeedbackViews.daily_feedback_trends in Ht.
    apply in_map_iff in Ht as (d & <- & _).
    apply count_types_sum, Forall_filter_keep, Hcheck.
Qed.

Lemma feedback_type_counts_witness :
  let rows := [Feedback.mkFeedback 0 "q" "a" "helpful" None (Some 4%Z) None None (Some 0%Z);
               Feedback.mkFeedback 1 "q" "a" "detailed" None None (Some "why") None (Some 86400%Z)] in
  let st := FeedbackViews.feedback_stats rows in
  FeedbackViews.helpful_count st + FeedbackViews.not_helpful_count st
  + FeedbackViews.partial_count st + FeedbackViews.detailed_count st
  = FeedbackViews.total_feedback st
  /\ Forall (fun t => FeedbackViews.d_helpful_count t + FeedbackViews.d_not_helpful_count t
                      + FeedbackViews.d_partial_count t + FeedbackViews.d_detailed_count t
                      = FeedbackViews.d_total_feedback t)
            (FeedbackViews.daily_feedback_trends (fun z => Z.div z 86400) rows).
Proof.
  exact (feedback_type_counts (fun z => Z.div z 86400)
           [Feedback.mkFeedback 0 "q" "a" "helpful" None (Some 4%Z) None None (Some 0%Z);
            Feedback.mkFeedback 1 "q" "a" "detailed" None None (Some "why") None (Some 86400%Z)]
           ltac:(repeat constructor)).
Defined.

(** X15. [avg_rating] of [feedback_stats] is [NULL] exactly when
    [rated_responses] is 0; when every row satisfies the table's [CHECK]
    on [rating], a non-[NULL] average lies between 1 and 5. *)
Theorem feedback_avg_rating (rows : list Feedback.FeedbackRow)
        (Hcheck : Forall (fun r => FeedbackViews.row_check r = true) rows) :
  let st := FeedbackViews.feedback_stats rows in
  (FeedbackViews.avg_rating st = None <-> FeedbackViews.rated_responses st = 0)
  /\ forall q, FeedbackViews.avg_rating st = Some q -> (1 <= q <= 5)%Q.
Proof.
  cbv zeta; cbn [FeedbackViews.avg_rating FeedbackViews.rated_responses
                 FeedbackViews.feedback_stats].
  rewrite <- ratings_length.
  unfold FeedbackViews.avg_rating_of.
  pose proof (ratings_bounds rows Hcheck) as Hb.
  destruct (FeedbackViews.ratings rows) as [|k ks] eqn:E.
  - split; [split; reflexivity|discriminate].
  - split; [split; discriminate|].
    intros q Hq; injection Hq as <-.
    pose proof (fold_add_bounds (k :: ks) 0 Hb) as [Hlo Hhi].
    change (Z.pos (Pos.of_succ_nat (length ks))) with (Z.of_nat (length (k :: ks))).
    change (fold_left Z.add ks k) with (fold_left Z.add (k :: ks) 0%Z).
    apply Q_avg_bounds; [cbn [length]; lia|lia|lia].
Qed.

Lemma feedback_avg_rating_witness :
  let rows := [Feedback.mkFeedback 0 "q" "a" "helpful" None (Some 4%Z) None None (Some 0%Z);
               Feedback.mkFeedback 1 "q" "a" "partial" None (Some 5%Z) None None (Some 1%Z)] in
  let st := FeedbackViews.feedback_stats rows in
  (FeedbackViews.avg_rating st = None <-> FeedbackViews.rated_responses st = 0)
  /\ forall q, FeedbackViews.avg_rating st = Some q -> (1 <= q <= 5)%Q.
Proof.
  exact (feedback_avg_rating
           [Feedback.mkFeedback 0 "q" "a" "helpful" None (Some 4%Z) None None (Some 0%Z);
            Feedback.mkFeedback 1 "q" "a" "partial" None (Some 5%Z) None None (Some 1%Z)]
           ltac:(repeat constructor)).
Defined.

(** X16. [daily_feedback_trends] has one row per distinct value of
    [DATE(created_at)]: the rows with a [NULL] [created_at] form one group
    with a [NULL] date, which [DESC] places first, and the days follow,
    latest first, none repeated. Every row's own date is among the
    groups' dates, every group is non-empty, and the groups'
    [total_feedback] add up to the number of rows. *)
Theorem daily_trends_partition (date_of : Z -> Z) (rows : list Feedback.FeedbackRow) :
  let ts := FeedbackViews.daily_feedback_trends date_of rows in
  list_sum (map FeedbackViews.d_total_feedback ts) = length rows
  /\ Sorted (fun a b => match a, b with
                        | None, Some _ => True
                        | Some x, Some y => (x > y)%Z
                        | _, _ => False
                        end) (map FeedbackViews.feedback_date ts)
  /\ (forall r, In r rows ->
        In (option_map date_of (Feedback.fb_created_at r))
           (map FeedbackViews.feedback_date ts))
  /\ Forall (fun t => 0 < FeedbackViews.d_total_feedback t) ts.
Proof.
  cbv zeta; unfold FeedbackViews.daily_feedback_trends.
  set (key := FeedbackViews.day_key date_of).
  set (ds := FeedbackViews.sort_desc (nodup FeedbackViews.opt_Z_eq_dec (map key rows))).
  assert (Hp : Permutation ds (nodup FeedbackViews.opt_Z_eq_dec (map key rows)))
    by apply sort_desc_perm.
  assert (Hnd : NoDup ds)
    by (eapply Permutation_NoDup; [symmetry; exact Hp|apply NoDup_nodup]).
  assert (Hin : forall d, In d ds <-> In d (map key rows))
    by (intros d; split; intros H;
        [apply (nodup_In FeedbackViews.opt_Z_eq_dec); exact (Permutation_in _ Hp H)
        |apply (Permutation_in _ (Permutation_sym Hp)); apply nodup_In; exact H]).
  assert (Hdates : map FeedbackViews.feedback_date
                     (map (FeedbackViews.day_trend date_of rows) ds) = ds)
    by (rewrite map_map; apply map_id).
  split; [|split; [|split]].
  - rewrite map_map.
    apply (group_sizes _ _ opt_Z_eqb_spec key); [exact Hnd|].
    intros r Hr; apply Hin, in_map_iff; exists r; split; [reflexivity|exact Hr].
  - rewrite Hdates; apply sorted_desc_nodup_strict; [apply sort_desc_sorted|exact Hnd].
  - intros r Hr; rewrite Hdates; apply Hin, in_map_iff; exists r; split; auto.
  - apply Forall_forall; intros t Ht.
    apply in_map_iff in Ht as (d & <- & Hd).
    apply Hin, in_map_iff in Hd as (r & Hrd & Hr).
    cbn [FeedbackViews.day_trend FeedbackViews.d_total_feedback].
    unfold FeedbackViews.rows_of_day.
    assert (Hrf : In r (filter (fun r => FeedbackViews.opt_Z_eqb
                                           (FeedbackViews.day_key date_of r) d) rows))
      by (apply filter_In; split; [exact Hr|apply opt_Z_eqb_spec; exact Hrd]).
    destruct (filter _ rows); [destruct Hrf|simpl; lia].
Qed.

(** X17. The [DO] block of the setup script fails (and is rolled back)
    when the generated [id] is already in the table; otherwise it always
    takes its success branch, and its [DELETE] removes, besides its own
    test row, every row already in the table with [chat_id = 'test-setup'],
    keeping the other rows in order. *)
Theorem setup_check_effect (table : list Feedback.FeedbackRow) (id : nat) (now : Z) :
  FeedbackViews.setup_check table id now
  = if existsb (fun x => Nat.eqb (Feedback.fb_id x) id) table then None
    else Some (filter (fun r => negb (FeedbackViews.is_test_setup r)) table,
               [FeedbackViews.NoticeSetupCompleted; FeedbackViews.NoticeReady;
                FeedbackViews.NoticeCleanedUp; FeedbackViews.NoticeViews;
                FeedbackViews.NoticeFunctions]).
Proof.
  unfold FeedbackViews.setup_check, FeedbackViews.insert_row.
  change (FeedbackViews.row_check (FeedbackViews.test_row id now)) with true.
  cbn [Feedback.fb_id FeedbackViews.test_row andb].
  destruct (existsb (fun x => Nat.eqb (Feedback.fb_id x) id) table); [reflexivity|].
  cbn [negb].
  assert (Hex : existsb FeedbackViews.is_test_setup
                  (app table [FeedbackViews.test_row id now]) = true)
    by (rewrite existsb_app; simpl; apply orb_true_r).
  rewrite Hex, filter_negb_app_test; reflexivity.
Qed.

Lemma preview_loop_meta (env : Env) (p : Params) (cfg : SplitterCfg) (fs : list File)
      acc tpt em x :
  Preview.preview_loop env p cfg fs acc tpt em = inr x ->
  exists emn,
    snd x = app em emn
    /\ Forall2 (fun f e =>
         exists pr fields,
           parsePDF env (file_bytes f) (pdfParser p) (development env) = Ret pr
           /\ e = JObj fields
           /\ lookup fields "parserUsed" = Some (JStr (parserUsed pr))
           /\ lookup fields "parseTime" = Some (JNum (Z.of_nat (parseTime pr)))
           /\ (~ In "filename" (map fst (spread (pr_metadata pr))) ->
               lookup fields "filename" = Some (JStr (file_name f))))
         fs emn.
Proof.
  revert acc tpt em; induction fs as [|f fs IH]; intros acc tpt em.
  - intros [= <-]; exists []; rewrite app_nil_r; split; [reflexivity|constructor].
  - simpl.
    destruct (parsePDF env (file_bytes f) (pdfParser p) (development env)) as [pr|e] eqn:Hp;
      [|discriminate].
    set (X := obj_assign [("filename", JStr (file_name f))] (spread (pr_metadata pr))).
    set (fields := obj_assign X [("parserUsed", JStr (parserUsed pr));
                                 ("parseTime", JNum (Z.of_nat (parseTime pr)))]).
    assert (Hentry :
              lookup fields "parserUsed" = Some (JStr (parserUsed pr))
              /\ lookup fields "parseTime" = Some (JNum (Z.of_nat (parseTime pr)))
              /\ (~ In "filename" (map fst (spread (pr_metadata pr))) ->
                  lookup fields "filename" = Some (JStr (file_name f)))).
    { unfold fields; unfold obj_assign at 1 2 3; cbn [fold_left fst snd].
      rewrite !lookup_obj_set.
      split; [reflexivity|split; [reflexivity|]].
      intros Hn; cbn [String.eqb Ascii.eqb Bool.eqb andb].
      unfold X; rewrite lookup_obj_assign_notin by exact Hn; reflexivity. }
    intros Hx.
    assert (Hrest : exists acc' tpt',
               Preview.preview_loop env p cfg fs acc' tpt' (app em [JObj fields]) = inr x).
    { destruct (blank (text pr)); [eexists _, _; exact Hx|].
      destruct (split_text env cfg (text pr)); [eexists _, _; exact Hx|discriminate]. }
    destruct Hrest as (acc' & tpt' & Hrest).
    destruct (IH _ _ _ Hrest) as (emn & Hs & Hf).
    exists (JObj fields :: emn); split; [rewrite Hs, <- app_assoc; reflexivity|].
    constructor; [|exact Hf].
    exists pr, fields; split; [exact Hp|split; [reflexivity|exact Hentry]].
Qed.

(** X18. In a successful preview response, [files_metadata] holds one
    object per file, in file order: it has [parserUsed] and [parseTime]
    of that file's parse, which the PDF's own metadata cannot override,
    and [filename] the file's name unless the PDF's metadata has a key
    [filename] of its own. *)
Theorem preview_files_metadata (env : Env) (fd : FormData) (st : Preview.ChunkStats)
        (Hok : Preview.preview env fd = Preview.PreviewOk st) :
  Forall2 (fun f e =>
      exists pr fields,
        parsePDF env (file_bytes f) (pdfParser (read_params fd)) (development env) = Ret pr
        /\ e = JObj fields
        /\ lookup fields "parserUsed" = Some (JStr (parserUsed pr))
        /\ lookup fields "parseTime" = Some (JNum (Z.of_nat (parseTime pr)))
        /\ (~ In "filename" (map fst (spread (pr_metadata pr))) ->
            lookup fields "filename" = Some (JStr (file_name f))))
    (files fd) (Preview.files_metadata (Preview.parsing_info st)).
Proof.
  revert Hok; unfold Preview.preview.
  destruct (files fd) as [|f0 fs] eqn:Hf; [discriminate|].
  destruct (match f_metadata fd with
            | None => Ret (JObj [])
            | Some s => if String.eqb s "" then Ret (JObj []) else json_parse env s
            end); [|discriminate].
  destruct (new_splitter env (make_splitter (read_params fd))); [|discriminate].
  destruct (Preview.preview_loop env (read_params fd) (make_splitter (read_params fd))
              (f0 :: fs) [] 0 []) as [r|[[acc tpt] em]] eqn:Hl.
  - intros ->; exfalso; eapply preview_loop_inl; [exact Hl|reflexivity].
  - destruct (preview_loop_meta _ _ _ _ _ _ _ _ Hl) as (emn & Hs & Hm).
    cbn [snd] in Hs; subst em.
    destruct acc as [|c cs]; [discriminate|].
    intros [= <-]; exact Hm.
Qed.

Lemma preview_files_metadata_witness :
  exists st,
    Preview.preview Scenarios.env_ok (Scenarios.form [Scenarios.good_file] (Some "{}"))
    = Preview.PreviewOk st
    /\ Forall2 (fun f e =>
         exists pr fields,
           parsePDF Scenarios.env_ok (file_bytes f) "pdf-parse" false = Ret pr
           /\ e = JObj fields
           /\ lookup fields "parserUsed" = Some (JStr (parserUsed pr))
           /\ lookup fields "parseTime" = Some (JNum (Z.of_nat (parseTime pr)))
           /\ (~ In "filename" (map fst (spread (pr_metadata pr))) ->
               lookup fields "filename" = Some (JStr (file_name f))))
         [Scenarios.good_file] (Preview.files_metadata (Preview.parsing_info st)).
Proof.
  eexists; split; [vm_compute; reflexivity|].
  exact (preview_files_metadata Scenarios.env_ok
           (Scenarios.form [Scenarios.good_file] (Some "{}")) _ ltac:(vm_compute; reflexivity)).
Defined.
